(** * Prescription fulfillment dashboard: status derivation, fulfillment
      transitions, communication log and display order of [src/App.js].

    The development embeds the non-presentational part of [App.js]:
    - the helpers [addMonths] and [formatDate] (over a model of the
      ECMAScript [Date] arithmetic they call),
    - the creation branch of [SubscriptionForm.handleSubmit],
    - the [onSnapshot] handler (snapshot mapping and status derivation),
    - [addLog] and [updateFulfillment] (as the Firestore writes they issue),
    - [getNextActionableDate] and the comparator of [sortedSubscriptions].

    Strings are JavaScript strings compared with [===]; a [Date] is its time
    value (milliseconds since the epoch, an integer); [null] is [None].
    Clock readings ([new Date()], [Date.now()]) are arguments.  A Firestore
    write to an existing document is taken to succeed: the handlers catch a
    failed write, report it and change nothing. *)

From Stdlib Require Import ZArith String Ascii Bool Lia DecimalString.
From Stdlib Require Import List Permutation.
Import ListNotations.

Open Scope string_scope.
Open Scope list_scope.
Open Scope Z_scope.

(** ** ECMAScript [Date] arithmetic (ECMA-262, "Time Values and Time Range")

    Only what [addMonths] and [formatDate] reach: [getMonth], [setMonth] and
    the numeric en-US rendering of a local date.  Time values are taken inside
    the range where [TimeClip] is the identity; a statement that depends on
    the range has it as a hypothesis ([validTime]). *)

Module JSDate.

Definition msPerDay : Z := 86400000.

Definition Day (t : Z) : Z := t / msPerDay.
Definition TimeWithinDay (t : Z) : Z := t mod msPerDay.

Definition DaysInYear (y : Z) : Z :=
  if negb (y mod 4 =? 0) then 365
  else if negb (y mod 100 =? 0) then 366
  else if negb (y mod 400 =? 0) then 365
  else 366.

Definition DayFromYear (y : Z) : Z :=
  365 * (y - 1970) + (y - 1969) / 4 - (y - 1901) / 100 + (y - 1601) / 400.

Definition TimeFromYear (y : Z) : Z := msPerDay * DayFromYear y.

(** [YearFromTime t] is the largest [y] with [TimeFromYear y <= t]; it is
    computed from the day count since 1601-01-01 by 400/100/4/1-year cycles
    ([YearFromTime_spec] below relates the two). *)
Definition YearFromTime (t : Z) : Z :=
  let n := Day t + 134774 in
  let n400 := n / 146097 in
  let r400 := n mod 146097 in
  let n100 := Z.min (r400 / 36524) 3 in
  let r100 := r400 - 36524 * n100 in
  let n4 := r100 / 1461 in
  let r4 := r100 mod 1461 in
  let n1 := Z.min (r4 / 365) 3 in
  1601 + 400 * n400 + 100 * n100 + 4 * n4 + n1.

Definition InLeapYear (t : Z) : Z :=
  if DaysInYear (YearFromTime t) =? 366 then 1 else 0.

Definition DayWithinYear (t : Z) : Z := Day t - DayFromYear (YearFromTime t).

(** First day (within the year) of month [m], 0 = January; [leap] is 0 or 1. *)
Definition monthStart (m leap : Z) : Z :=
  match m with
  | 0 => 0
  | 1 => 31
  | 2 => 59 + leap
  | 3 => 90 + leap
  | 4 => 120 + leap
  | 5 => 151 + leap
  | 6 => 181 + leap
  | 7 => 212 + leap
  | 8 => 243 + leap
  | 9 => 273 + leap
  | 10 => 304 + leap
  | 11 => 334 + leap
  | _ => 365 + leap
  end.

Definition MonthFromTime (t : Z) : Z :=
  let d := DayWithinYear t in
  let l := InLeapYear t in
  if d <? 31 then 0
  else if d <? 59 + l then 1
  else if d <? 90 + l then 2
  else if d <? 120 + l then 3
  else if d <? 151 + l then 4
  else if d <? 181 + l then 5
  else if d <? 212 + l then 6
  else if d <? 243 + l then 7
  else if d <? 273 + l then 8
  else if d <? 304 + l then 9
  else if d <? 334 + l then 10
  else 11.

Definition DateFromTime (t : Z) : Z :=
  DayWithinYear t + 1 - monthStart (MonthFromTime t) (InLeapYear t).

(** 1 in a leap year, 0 otherwise. *)
Definition leapOf (y : Z) : Z := if DaysInYear y =? 366 then 1 else 0.

(** The number of days of month [m] (0 = January) of year [y]. *)
Definition DaysInMonth (y m : Z) : Z :=
  match m with
  | 1 => 28 + leapOf y
  | 3 | 5 | 8 | 10 => 30
  | _ => 31
  end.

(** [MakeDay(year, month, date)]: the month may lie outside 0..11 and the date
    outside the month, both roll over. *)
Definition MakeDay (year month date : Z) : Z :=
  let ym := year + month / 12 in
  let mn := month mod 12 in
  let leap := if DaysInYear ym =? 366 then 1 else 0 in
  DayFromYear ym + monthStart mn leap + date - 1.

Definition MakeDate (day time : Z) : Z := day * msPerDay + time.

(** [TimeClip]: a time value beyond 8.64e15 ms from the epoch is no time
    value ([NaN], an Invalid Date). *)
Definition TimeClip (t : Z) : option Z :=
  if Z.abs t <=? 8640000000000000 then Some t else None.

(** [t] is a time value: [TimeClip] keeps it. *)
Definition validTime (t : Z) : Prop := TimeClip t = Some t.


(** Decimal rendering of an integer (below 10^21 in absolute value), as a
    template literal or [String(n)] gives it. *)
Definition decimal (n : Z) : string :=
  NilZero.string_of_int (Z.to_int n).

Section LocalTime.

(** The host's local time zone adjustment, [LocalTZA(t, isUTC)]. *)
Variable LocalTZA : Z -> bool -> Z.

Definition LocalTime (t : Z) : Z := t + LocalTZA t true.
Definition UTC (t : Z) : Z := t - LocalTZA t false.

(** [Date.prototype.getMonth] *)
Definition getMonth (tv : Z) : Z := MonthFromTime (LocalTime tv).

(** The local time [nl] exists on the host: no clock change skips it, so the
    time value [UTC(nl)] reads back as [nl]. *)
Definition existsLocally (nl : Z) : Prop := LocalTime (UTC nl) = nl.

(** [Date.prototype.setMonth(month)]: the new time value before the final
    [TimeClip].  The date the code holds is [TimeClip] of it: the same number
    when that is a [validTime], an Invalid Date otherwise. *)
Definition setMonth (tv month : Z) : Z :=
  let t := LocalTime tv in
  UTC (MakeDate (MakeDay (YearFromTime t) month (DateFromTime t))
                (TimeWithinDay t)).

(** [toLocaleDateString('en-US')] for a year of the common era:
    month/day/year of the local date, without padding. *)
Definition toLocaleDateString_enUS (tv : Z) : string :=
  let t := LocalTime tv in
  (decimal (MonthFromTime t + 1) ++ "/" ++ decimal (DateFromTime t)
    ++ "/" ++ decimal (YearFromTime t))%string.

End LocalTime.

(** A host whose local time is UTC. *)
Definition utc_host : Z -> bool -> Z := fun _ _ => 0.

End JSDate.

(** ** Data model

    Records as the code reads and writes them.  [status] fields are plain
    strings: nothing in the code restricts them to the names it uses.  A
    fulfillment always carries its [fulfillmentDate]: [updateFulfillment]
    calls [getTime()] on it without a guard. *)

Record Fulfillment := mkFulfillment {
  fulfillmentDate : Z;
  status : string;
  tracking : option string;
  rxId : option string
}.

Record LogEntry := mkLogEntry {
  date : Z;
  message : string;
  actor : string
}.

(** The data of a stored document ([doc.data()], and what [addDoc] receives).
    A stored document may lack [startDate], [fulfillments] or
    [communicationLog]: the snapshot handler reads them with [?.]. *)
Record DocData := mkDocData {
  data_patientName : string;
  data_drugName : string;
  data_newRxCall : bool;
  data_duration : Z;
  data_status : string;
  data_physicianStatus : string;
  data_startDate : option Z;
  data_fulfillments : option (list Fulfillment);
  data_communicationLog : option (list LogEntry)
}.

(** An element of [querySnapshot.docs]. *)
Record QueryDoc := mkQueryDoc {
  doc_id : string;
  doc_data : DocData
}.

(** An element of the [subscriptions] state. *)
Record Subscription := mkSubscription {
  id : string;
  patientName : string;
  drugName : string;
  newRxCall : bool;
  duration : Z;
  sub_status : string;
  physicianStatus : string;
  startDate : option Z;
  fulfillments : list Fulfillment;
  communicationLog : list LogEntry
}.

(** [{ ...sub, status: s }] *)
Definition set_status (s : string) (sub : Subscription) : Subscription :=
  mkSubscription (id sub) (patientName sub) (drugName sub) (newRxCall sub)
    (duration sub) s (physicianStatus sub) (startDate sub)
    (fulfillments sub) (communicationLog sub).

(** ** Helper functions of [App.js] *)

Section Helpers.

Variable LocalTZA : Z -> bool -> Z.

(** [addMonths(date, months)]: copy the date, [setMonth(getMonth() + months)]. *)
Definition addMonths (date months : Z) : Z :=
  let d := date in
  JSDate.setMonth LocalTZA d (JSDate.getMonth LocalTZA d + months).

(** [Date.prototype.toLocaleDateString('en-US')], left to the host. *)
Variable toLocaleDateString : Z -> string.

(** [formatDate(date)]: ['N/A'] for a missing date. *)
Definition formatDate (date : option Z) : string :=
  match date with
  | None => "N/A"
  | Some d => toLocaleDateString d
  end.

End Helpers.

(** ** [SubscriptionForm.handleSubmit], creation branch *)

Record FormData := mkFormData {
  form_patientName : string;
  form_drugName : string;
  form_newRxCall : bool;
  form_duration : Z;          (* [parseInt(formData.duration, 10)] *)
  form_status : string;
  form_physicianStatus : string
}.

Section Creation.

Variable LocalTZA : Z -> bool -> Z.

(** The three clock readings of the branch: [new Date()] for the start date,
    [Date.now()] for the prescription id, [new Date()] for the log entry. *)
Variables (startDateNow rxNow logNow : Z).

(** The object pushed at iteration [i]. *)
Definition newFulfillment (i : Z) : Fulfillment :=
  {| fulfillmentDate := addMonths LocalTZA startDateNow i;
     status := if i =? 0 then "RX Received" else "Scheduled";
     tracking := None;
     rxId := if i =? 0
             then Some ("RX-INITIAL-" ++ JSDate.decimal rxNow)%string
             else None |}.

(** [for (let i = ...; i < duration; i++) fulfillments.push(...)], with
    [n] iterations left. *)
Fixpoint pushFulfillments (n : nat) (i : Z) (fulfillments : list Fulfillment)
  : list Fulfillment :=
  match n with
  | O => fulfillments
  | S n' => pushFulfillments n' (i + 1) (fulfillments ++ [newFulfillment i])
  end.

Definition handleSubmit_create (formData : FormData) : DocData :=
  let duration := form_duration formData in
  let fulfillments := pushFulfillments (Z.to_nat duration) 0 [] in
  {| data_patientName := form_patientName formData;
     data_drugName := form_drugName formData;
     data_newRxCall := form_newRxCall formData;
     data_duration := duration;
     data_status := form_status formData;
     data_physicianStatus := form_physicianStatus formData;
     data_startDate := Some startDateNow;
     data_fulfillments := Some fulfillments;
     data_communicationLog :=
       Some [ {| date := logNow;
                 message := "Subscription created.";
                 actor := "System" |} ] |}.

End Creation.

(** ** The [onSnapshot] handler *)

(** The mapping of one document; absent arrays default to [[]]. *)
Definition snapshotDoc (doc : QueryDoc) : Subscription :=
  let data := doc_data doc in
  {| id := doc_id doc;
     patientName := data_patientName data;
     drugName := data_drugName data;
     newRxCall := data_newRxCall data;
     duration := data_duration data;
     sub_status := data_status data;
     physicianStatus := data_physicianStatus data;
     startDate := data_startDate data;
     fulfillments :=
       match data_fulfillments data with Some fs => fs | None => [] end;
     communicationLog :=
       match data_communicationLog data with Some l => l | None => [] end |}.

Definition allFulfilled (sub : Subscription) : bool :=
  forallb (fun f => String.eqb (status f) "Shipped") (fulfillments sub).

Definition requiresAction (sub : Subscription) : bool :=
  existsb (fun f => String.eqb (status f) "RX Received") (fulfillments sub).

(** The value of [overallStatus] at the end of the callback of [subs.map]. *)
Definition overallStatus (sub : Subscription) : string :=
  let overallStatus := sub_status sub in
  if negb (String.eqb overallStatus "On Hold") then
    if allFulfilled sub then "Fulfilled"
    else if requiresAction sub then "Action Required"
    else "Active"
  else overallStatus.

Definition deriveStatus (sub : Subscription) : Subscription :=
  set_status (overallStatus sub) sub.

(** The argument of [setSubscriptions]. *)
Definition onSnapshot (docs : list QueryDoc) : list Subscription :=
  let subs := map snapshotDoc docs in
  let updatedSubs := map deriveStatus subs in
  updatedSubs.

(** ** Firestore writes

    [updateDoc(doc(db, 'subscriptions', id), patch)] replaces the fields named
    by the patch in the document [id] and leaves the others.  The two patches
    the code issues set [communicationLog] or [fulfillments]. *)

Inductive fieldPatch :=
| SetCommunicationLog (log : list LogEntry)
| SetFulfillments (fs : list Fulfillment).

Definition write : Type := string * fieldPatch.

Definition patchData (p : fieldPatch) (data : DocData) : DocData :=
  match p with
  | SetCommunicationLog log =>
      mkDocData (data_patientName data) (data_drugName data)
        (data_newRxCall data) (data_duration data) (data_status data)
        (data_physicianStatus data) (data_startDate data)
        (data_fulfillments data) (Some log)
  | SetFulfillments fs =>
      mkDocData (data_patientName data) (data_drugName data)
        (data_newRxCall data) (data_duration data) (data_status data)
        (data_physicianStatus data) (data_startDate data)
        (Some fs) (data_communicationLog data)
  end.

(** One [updateDoc] on the collection; a write to an id that no document has
    fails and changes nothing (the code catches the failure). *)
Definition updateDoc (docs : list QueryDoc) (w : write) : list QueryDoc :=
  map (fun d => if String.eqb (doc_id d) (fst w)
                then mkQueryDoc (doc_id d) (patchData (snd w) (doc_data d))
                else d) docs.

(** The writes of one handler, in the order they are awaited. *)
Definition commit (docs : list QueryDoc) (ws : list write) : list QueryDoc :=
  fold_left updateDoc ws docs.

(** [querySnapshot.docs.find(d => d.id === subId)] *)
Definition getDoc (subId : string) (docs : list QueryDoc) : option QueryDoc :=
  find (fun d => String.eqb (doc_id d) subId) docs.

(** ** [addLog] and [updateFulfillment] *)

(** A value interpolated in a template literal. *)
Definition interpolate (v : option string) : string :=
  match v with
  | Some s => s
  | None => "null"
  end.

Section Handlers.

Variable toLocaleDateString : Z -> string.

(** The [subscriptions] state the handlers close over. *)
Variable subscriptions : list Subscription.

(** The clock reading of [new Date()] in [addLog]. *)
Variable now : Z.

Definition addLog (subId message actor : string) : list write :=
  match find (fun s => String.eqb (id s) subId) subscriptions with
  | None => []
  | Some sub =>
      let newLog := {| date := now; message := message; actor := actor |} in
      [ (subId, SetCommunicationLog (communicationLog sub ++ [newLog])) ]
  end.

(** The callback of [sub.fulfillments.map] in [updateFulfillment]. *)
Definition updateOne (fulfillmentToUpdate : Fulfillment) (newStatus : string)
    (tracking' : option string) (f : Fulfillment) : Fulfillment :=
  if fulfillmentDate f =? fulfillmentDate fulfillmentToUpdate then
    {| fulfillmentDate := fulfillmentDate f;
       status := newStatus;
       tracking := match tracking' with
                   | Some t => Some t
                   | None => tracking f
                   end;
       rxId := rxId f |}
  else f.

Definition logMessage (fulfillmentToUpdate : Fulfillment)
    (newStatus : string) (tracking' : option string) : string :=
  (if String.eqb newStatus "Shipped"
   then "Marked fulfillment for "
          ++ formatDate toLocaleDateString
               (Some (fulfillmentDate fulfillmentToUpdate))
          ++ " as Shipped. Tracking: " ++ interpolate tracking'
   else "Updated fulfillment for "
          ++ formatDate toLocaleDateString
               (Some (fulfillmentDate fulfillmentToUpdate))
          ++ " to status: " ++ newStatus ++ ".")%string.

Definition updateFulfillment (subId : string)
    (fulfillmentToUpdate : Fulfillment) (newStatus : string)
    (tracking' : option string) : list write :=
  match find (fun s => String.eqb (id s) subId) subscriptions with
  | None => []
  | Some sub =>
      let newFulfillments :=
        map (updateOne fulfillmentToUpdate newStatus tracking')
            (fulfillments sub) in
      let logMessage := logMessage fulfillmentToUpdate newStatus tracking' in
      addLog subId logMessage
             (if String.eqb newStatus "Shipped"
              then "Pharmacy Staff" else "System")
        ++ [ (subId, SetFulfillments newFulfillments) ]
  end.

End Handlers.

(** ** Display order *)

Definition getNextActionableDate (sub : Subscription) : option Z :=
  let nextActionable :=
    find (fun f => negb (String.eqb (status f) "Shipped")) (fulfillments sub) in
  match nextActionable with
  | Some f => Some (fulfillmentDate f)
  | None => None
  end.

(** The comparator passed to [sort]. *)
Definition compareSubscriptions (a b : Subscription) : Z :=
  if String.eqb (sub_status a) "Action Required"
     && negb (String.eqb (sub_status b) "Action Required") then -1
  else if String.eqb (sub_status b) "Action Required"
          && negb (String.eqb (sub_status a) "Action Required") then 1
  else
    let dateA := getNextActionableDate a in
    let dateB := getNextActionableDate b in
    match dateA with
    | None => 1                        (* [if (!dateA) return 1] *)
    | Some da =>
        match dateB with
        | None => -1                   (* [if (!dateB) return -1] *)
        | Some db => da - db
        end
    end.

(** *** [Array.prototype.sort]

    ECMA-262 leaves the sequence of comparator calls to the engine.  The
    model is the insertion sort engines run on short arrays: each element in
    turn is moved left past the elements of the sorted prefix it has to
    precede.  Engines differ in how they ask the comparator whether a later
    element [x] has to precede an earlier element [y]:
    - V8 calls [comparefn(x, y)] and moves [x] when the result is negative;
    - SpiderMonkey calls [comparefn(y, x)] and moves [x] when the result is
      positive.
    The two agree for every comparator with [comparefn(x, y) < 0] exactly
    when [comparefn(y, x) > 0]. *)

Module JSArray.

Inductive engine := V8 | SpiderMonkey.

Section Sort.

Context {A : Type}.
Variable e : engine.
Variable comparefn : A -> A -> Z.

Definition movesBefore (x y : A) : bool :=
  match e with
  | V8 => comparefn x y <? 0
  | SpiderMonkey => 0 <? comparefn y x
  end.

(** Insert [x] behind the sorted prefix, given last element first. *)
Fixpoint insert (x : A) (prefix : list A) : list A :=
  match prefix with
  | [] => [x]
  | y :: rest => if movesBefore x y then y :: insert x rest else x :: prefix
  end.

Definition sort (l : list A) : list A :=
  rev (fold_left (fun prefix x => insert x prefix) l []).

End Sort.

End JSArray.

Definition sortedSubscriptions (e : JSArray.engine)
    (subscriptions : list Subscription) : list Subscription :=
  JSArray.sort e compareSubscriptions subscriptions.

(** ** Status tables *)

(** An entry of [FULFILLMENT_STATUSES]; the icon is the name of the imported
    component. *)
Record StatusInfo := mkStatusInfo {
  icon : string;
  color : string;
  label : string
}.

(** The own properties of [FULFILLMENT_STATUSES]. *)
Definition FULFILLMENT_STATUSES (key : string) : option StatusInfo :=
  if String.eqb key "Scheduled" then
    Some (mkStatusInfo "Clock" "text-gray-400" "Scheduled")
  else if String.eqb key "Intake Sent" then
    Some (mkStatusInfo "Mail" "text-blue-500" "Intake Sent")
  else if String.eqb key "Awaiting RX" then
    Some (mkStatusInfo "Paperclip" "text-orange-500" "Awaiting RX")
  else if String.eqb key "RX Received" then
    Some (mkStatusInfo "CheckCircle" "text-purple-600"
                       "RX Received - Ready to Ship")
  else if String.eqb key "Shipped" then
    Some (mkStatusInfo "Truck" "text-green-600" "Shipped")
  else None.

(** The own properties of [STATUS_COLORS]. *)
Definition STATUS_COLORS (key : string) : option string :=
  if String.eqb key "Pending" then Some "bg-yellow-100 text-yellow-800"
  else if String.eqb key "Approved" then Some "bg-blue-100 text-blue-800"
  else if String.eqb key "Action Required" then Some "bg-red-100 text-red-800"
  else if String.eqb key "Active" then Some "bg-green-100 text-green-800"
  else if String.eqb key "Fulfilled" then Some "bg-gray-100 text-gray-800"
  else if String.eqb key "On Hold" then Some "bg-gray-100 text-gray-800"
  else None.

(** ** [SubscriptionForm]: initial state and the edit branch of [handleSubmit] *)

(** [s || d] on strings: the empty string is falsy. *)
Definition orDefault (s d : string) : string :=
  if String.eqb s "" then d else s.

(** The initial [formData]; [randomName] is the value of
    [`Patient-${Math.floor(1000 + Math.random() * 9000)}`].  The [startDate]
    of the form is only displayed: [handleSubmit] overwrites it. *)
Definition initialFormData (randomName : string)
    (subscription : option Subscription) : FormData :=
  match subscription with
  | None =>
      mkFormData randomName "Lisinopril 10mg" false 1 "Pending" "Pending"
  | Some sub =>
      mkFormData (orDefault (patientName sub) randomName)
                 (orDefault (drugName sub) "Lisinopril 10mg")
                 (newRxCall sub)
                 (if duration sub =? 0 then 1 else duration sub)
                 (orDefault (sub_status sub) "Pending")
                 (orDefault (physicianStatus sub) "Pending")
  end.

(** [submissionData]: the document data and, when editing, the id. *)
Record SubmissionData := mkSubmissionData {
  submission_id : option string;
  submission_data : DocData
}.

(** The branch [if (subscription)] of [handleSubmit]. *)
Definition handleSubmit_edit (formData : FormData)
    (subscription : Subscription) : SubmissionData :=
  {| submission_id := Some (id subscription);
     submission_data :=
       {| data_patientName := form_patientName formData;
          data_drugName := form_drugName formData;
          data_newRxCall := form_newRxCall formData;
          data_duration := form_duration formData;
          data_status := form_status formData;
          data_physicianStatus := form_physicianStatus formData;
          data_startDate := startDate subscription;
          data_fulfillments := Some (fulfillments subscription);
          data_communicationLog := Some (communicationLog subscription) |} |}.

Definition handleSubmit (LocalTZA : Z -> bool -> Z)
    (startDateNow rxNow logNow : Z) (formData : FormData)
    (subscription : option Subscription) : SubmissionData :=
  match subscription with
  | Some sub => handleSubmit_edit formData sub
  | None =>
      {| submission_id := None;
         submission_data :=
           handleSubmit_create LocalTZA startDateNow rxNow logNow formData |}
  end.

(** ** [handleSaveSubscription] and [handleDelete]

    The stored data has no [id] field of its own.  [updateDoc] with the whole
    data replaces every field the model has; Firestore rejects a field value
    [undefined], which the handler catches, so a subscription without
    [startDate] is not written.  [newId] is the id Firestore gives the
    document [addDoc] creates. *)
Definition handleSaveSubscription (newId : string) (subData : SubmissionData)
    (docs : list QueryDoc) : list QueryDoc :=
  match submission_id subData with
  | Some docId =>
      if String.eqb docId "" then
        docs ++ [ mkQueryDoc newId (submission_data subData) ]
      else
        match data_startDate (submission_data subData) with
        | None => docs
        | Some _ =>
            map (fun d => if String.eqb (doc_id d) docId
                          then mkQueryDoc (doc_id d) (submission_data subData)
                          else d) docs
        end
  | None => docs ++ [ mkQueryDoc newId (submission_data subData) ]
  end.

(** [confirmed] is the answer of [window.confirm]. *)
Definition handleDelete (confirmed : bool) (docId : string)
    (docs : list QueryDoc) : list QueryDoc :=
  if confirmed
  then filter (fun d => negb (String.eqb (doc_id d) docId)) docs
  else docs.

(** ** [LogModal] *)

Section LogModal.

(** [String.prototype.trim], left to the host. *)
Variable trim : string -> string.

Variable subscriptions : list Subscription.
Variable now : Z.

(** [handleAddLog]: a message that trims to the empty string is dropped, any
    other is logged as typed. *)
Definition handleAddLog (subscription : Subscription) (newMessage : string)
  : list write :=
  if String.eqb (trim newMessage) "" then []
  else addLog subscriptions now (id subscription) newMessage "Pharmacy Staff".

End LogModal.

(** The entries in the order the modal lists them:
    [[...log].sort((a, b) => b.date - a.date)]. *)
Definition compareLogEntries (a b : LogEntry) : Z := date b - date a.

Definition displayedLog (e : JSArray.engine) (subscription : Subscription)
  : list LogEntry :=
  JSArray.sort e compareLogEntries (communicationLog subscription).

(** ** [FulfillmentActionModal] *)

(** [useState(fulfillment?.tracking || '')] *)
Definition initialTrackingNumber (fulfillment : Fulfillment) : string :=
  match tracking fulfillment with
  | Some t => orDefault t ""
  | None => ""
  end.

(** The statuses of the three "Simulate" buttons. *)
Definition simulatedStatuses : list string :=
  [ "Intake Sent"; "Awaiting RX"; "RX Received" ].

(** The "Ship Package" panel is rendered for this fulfillment. *)
Definition shipPanelShown (fulfillment : Fulfillment) : bool :=
  String.eqb (status fulfillment) "RX Received".

Section ActionModal.

Variable toLocaleDateString : Z -> string.
Variable subscriptions : list Subscription.
Variable now : Z.

(** A "Simulate" button: [onUpdateFulfillment(subscription.id, fulfillment, s)]. *)
Definition simulateEvent (subscription : Subscription)
    (fulfillment : Fulfillment) (newStatus : string) : list write :=
  updateFulfillment toLocaleDateString subscriptions now (id subscription)
                    fulfillment newStatus None.

(** [handleShip], through [onMarkAsShipped]. *)
Definition handleShip (subscription : Subscription)
    (fulfillment : Fulfillment) (trackingNumber : string) : list write :=
  updateFulfillment toLocaleDateString subscriptions now (id subscription)
                    fulfillment "Shipped" (Some trackingNumber).

End ActionModal.

(** ** The table row *)

(** [nextDate && new Date(nextDate) < new Date()] *)
Definition isPastDue (now : Z) (sub : Subscription) : bool :=
  match getNextActionableDate sub with
  | Some nextDate => nextDate <? now
  | None => false
  end.

(** The text of the "Next Action Date" cell. *)
Definition nextActionCell (toLocaleDateString : Z -> string)
    (sub : Subscription) : string :=
  match getNextActionableDate sub with
  | Some nextDate => formatDate toLocaleDateString (Some nextDate)
  | None => "Completed"
  end.

(** * Specification vocabulary

    Predicates and composite operations the properties are stated with, and
    the concrete collections they are checked on. *)

(** ** Statuses and strings *)

Definition Shipped (f : Fulfillment) : Prop := status f = "Shipped".
Definition RxReceived (f : Fulfillment) : Prop := status f = "RX Received".

(** [f] is the first fulfillment of [sub], in stored order, whose status is
    not 'Shipped'. *)
Definition firstNotShipped (sub : Subscription) (f : Fulfillment) : Prop :=
  exists shipped rest,
    fulfillments sub = shipped ++ f :: rest /\
    Forall Shipped shipped /\ ~ Shipped f.



(** [s] occurs in [m]. *)
Definition contains (s m : string) : Prop :=
  exists pre post, m = (pre ++ s ++ post)%string.

Definition isActionRequired (s : Subscription) : bool :=
  String.eqb (sub_status s) "Action Required".

(** ** The collection after a handler *)

Definition patched (p : fieldPatch) (d : QueryDoc) : QueryDoc :=
  mkQueryDoc (doc_id d) (patchData p (doc_data d)).

(** The state after a handler: the collection with the handler's writes. *)
Definition afterUpdateFulfillment (toLocaleDateString : Z -> string)
    (docs : list QueryDoc) (now : Z) (subId : string)
    (fulfillmentToUpdate : Fulfillment) (newStatus : string)
    (tracking' : option string) : list QueryDoc :=
  commit docs
    (updateFulfillment toLocaleDateString (onSnapshot docs) now subId
                       fulfillmentToUpdate newStatus tracking').

Definition afterAddLog (docs : list QueryDoc) (now : Z)
    (subId message actor : string) : list QueryDoc :=
  commit docs (addLog (onSnapshot docs) now subId message actor).

(** The collections the handlers can produce: starting from the empty
    collection, [addDoc] of a created subscription under a fresh id (the form
    offers the durations 1, 3 and 6), fulfillment transitions and log
    appends, each issued from the last snapshot. *)
Inductive reachable : list QueryDoc -> Prop :=
| reach_empty : reachable []
| reach_create docs LocalTZA startDateNow rxNow logNow formData newId :
    reachable docs ->
    ~ In newId (map doc_id docs) ->
    0 < form_duration formData ->
    reachable
      (docs ++ [ mkQueryDoc newId
                   (handleSubmit_create LocalTZA startDateNow rxNow logNow
                                        formData) ])
| reach_updateFulfillment docs toLocaleDateString now subId key newStatus
                          tracking' :
    reachable docs ->
    reachable (afterUpdateFulfillment toLocaleDateString docs now subId key
                                      newStatus tracking')
| reach_addLog docs now subId message actor :
    reachable docs ->
    reachable (afterAddLog docs now subId message actor).

(** What must not change: per subscription, its id, its duration and the
    number of its fulfillments. *)
Definition counts (docs : list QueryDoc) : list (string * Z * nat) :=
  map (fun s => (id s, duration s, length (fulfillments s))) (onSnapshot docs).

Definition count_is_duration (s : Subscription) : Prop :=
  Z.of_nat (length (fulfillments s)) = duration s.

(** ** Order *)

(** [a] stands before [b] in [l]. *)
Definition precedes {A : Type} (a b : A) (l : list A) : Prop :=
  exists l1 l2 l3, l = l1 ++ a :: l2 ++ b :: l3.

(** Every element stands after the elements behind it in the list: the shape
    of a sorted prefix given last element first. *)
Fixpoint descending {A : Type} (R : A -> A -> Prop) (l : list A) : Prop :=
  match l with
  | [] => True
  | y :: rest => Forall (fun z => R z y) rest /\ descending R rest
  end.

(** The order the specification describes: 'Action Required' first, then by
    next actionable date, subscriptions without one last. *)
Definition mayPrecede (a b : Subscription) : bool :=
  if isActionRequired a && negb (isActionRequired b) then true
  else if isActionRequired b && negb (isActionRequired a) then false
  else match getNextActionableDate a, getNextActionableDate b with
       | _, None => true
       | None, Some _ => false
       | Some da, Some db => da <=? db
       end.

(** The same sort key. *)
Definition sameKey (a b : Subscription) : bool :=
  Bool.eqb (isActionRequired a) (isActionRequired b)
  && match getNextActionableDate a, getNextActionableDate b with
     | None, None => true
     | Some da, Some db => da =? db
     | _, _ => false
     end.

(** ** Concrete collections *)

(** A document stored without a [fulfillments] field, with status 'Pending'. *)
Definition doc_without_fulfillments : QueryDoc :=
  mkQueryDoc "a1"
    (mkDocData "Patient-1001" "Lisinopril 10mg" false 1 "Pending" "Pending"
               None None None).

(** The scenario of the specification: a three-month subscription created on
    2024-01-01 (UTC), stored under the id [sub1]. *)
Definition scenario_form : FormData :=
  mkFormData "Patient-1001" "Lisinopril 10mg" false 3 "Pending" "Pending".

Definition scenario_doc : QueryDoc :=
  mkQueryDoc "sub1"
    (handleSubmit_create JSDate.utc_host 1704067200000 1704067200000
                         1704067200000 scenario_form).

Definition enUS : Z -> string := JSDate.toLocaleDateString_enUS JSDate.utc_host.

(** The same form submitted on 2024-01-31 (UTC), a day the following month
    does not have. *)
Definition month_end_start : Z := 1706659200000.


(** A key whose date (2024-06-15) no fulfillment of the scenario has. *)
Definition unknown_key : Fulfillment :=
  mkFulfillment 1718409600000 "Scheduled" None None.

(** The first fulfillment of the scenario, as the action modal passes it. *)
Definition first_key : Fulfillment :=
  newFulfillment JSDate.utc_host 1704067200000 1704067200000 0.

(** A document whose two fulfillments share the date 2024-01-01. *)
Definition duplicate_dates_doc : QueryDoc :=
  mkQueryDoc "dup"
    (mkDocData "Patient-2002" "Lisinopril 10mg" false 2 "Active" "Approved"
       (Some 1704067200000)
       (Some [ mkFulfillment 1704067200000 "RX Received" None (Some "RX-1");
               mkFulfillment 1704067200000 "Scheduled" None None ])
       (Some [])).

(** A subscription whose only fulfillment is shipped. *)
Definition fulfilled_doc (docId : string) : QueryDoc :=
  mkQueryDoc docId
    (mkDocData "Patient-3003" "Lisinopril 10mg" false 1 "Fulfilled" "Approved"
       (Some 1704067200000)
       (Some [ mkFulfillment 1704067200000 "Shipped" (Some "1Z999")
                             (Some "RX-1") ])
       (Some [])).

(** ** The collections the interface can produce

    One client, acting on the last snapshot: a modal is opened on a
    subscription (and fulfillment) of the current [subscriptions] state and
    its handlers run before another snapshot arrives.  Firestore gives a new
    document a fresh, non-empty id.  The duration select offers 1, 3 and 6
    and is disabled when editing. *)

Section Interface.

Variable LocalTZA : Z -> bool -> Z.
Variable toLocaleDateString : Z -> string.
Variable trim : string -> string.

Inductive ui_step (docs : list QueryDoc) : list QueryDoc -> Prop :=
| ui_create formData startDateNow rxNow logNow newId :
    ~ In newId (map doc_id docs) ->
    newId <> "" ->
    In (form_duration formData) [1; 3; 6] ->
    ui_step docs
      (handleSaveSubscription newId
         (handleSubmit LocalTZA startDateNow rxNow logNow formData None) docs)
| ui_edit sub formData randomName startDateNow rxNow logNow newId :
    In sub (onSnapshot docs) ->
    form_duration formData
    = form_duration (initialFormData randomName (Some sub)) ->
    ui_step docs
      (handleSaveSubscription newId
         (handleSubmit LocalTZA startDateNow rxNow logNow formData (Some sub))
         docs)
| ui_delete sub confirmed :
    In sub (onSnapshot docs) ->
    ui_step docs (handleDelete confirmed (id sub) docs)
| ui_addLog sub now newMessage :
    In sub (onSnapshot docs) ->
    ui_step docs
      (commit docs (handleAddLog trim (onSnapshot docs) now sub newMessage))
| ui_simulate sub fulfillment now newStatus :
    In sub (onSnapshot docs) ->
    In fulfillment (fulfillments sub) ->
    In newStatus simulatedStatuses ->
    ui_step docs
      (commit docs
         (simulateEvent toLocaleDateString (onSnapshot docs) now sub
                        fulfillment newStatus))
| ui_ship sub fulfillment now trackingNumber :
    In sub (onSnapshot docs) ->
    In fulfillment (fulfillments sub) ->
    shipPanelShown fulfillment = true ->
    ui_step docs
      (commit docs
         (handleShip toLocaleDateString (onSnapshot docs) now sub
                     fulfillment trackingNumber)).

Inductive ui_reachable : list QueryDoc -> Prop :=
| ui_start : ui_reachable []
| ui_next docs docs' :
    ui_reachable docs -> ui_step docs docs' -> ui_reachable docs'.

(** What every stored fulfillment of a subscription started at [start]
    satisfies, by its index. *)
Definition fulfillment_ok (start : Z) (i : nat) (f : Fulfillment) : Prop :=
  fulfillmentDate f = addMonths LocalTZA start (Z.of_nat i) /\
  FULFILLMENT_STATUSES (status f) <> None /\
  (status f = "Shipped" -> tracking f <> None) /\
  (i = 0%nat -> rxId f <> None) /\
  (i <> 0%nat -> rxId f = None).

(** What every stored document satisfies. *)
Definition doc_ok (d : QueryDoc) : Prop :=
  doc_id d <> "" /\
  In (data_duration (doc_data d)) [1; 3; 6] /\
  exists start fs created rest,
    data_startDate (doc_data d) = Some start /\
    data_fulfillments (doc_data d) = Some fs /\
    Z.of_nat (length fs) = data_duration (doc_data d) /\
    (forall i f, nth_error fs i = Some f -> fulfillment_ok start i f) /\
    data_communicationLog (doc_data d)
    = Some ({| date := created;
               message := "Subscription created.";
               actor := "System" |} :: rest).

End Interface.

(** The statuses [updateFulfillment] receives from the action modal. *)
Definition modal_transition (newStatus : string) (tracking' : option string)
  : Prop :=
  (In newStatus simulatedStatuses /\ tracking' = None) \/
  (newStatus = "Shipped" /\ tracking' <> None).


(** The statuses the table can show. *)
Definition displayedStatuses : list string :=
  [ "On Hold"; "Fulfilled"; "Action Required"; "Active" ].

(** ** A host for the examples *)

(** White space among the code units below 256: tab, line feed, vertical tab,
    form feed, carriage return, space and no-break space. *)
Definition isWhiteSpace (ch : ascii) : bool :=
  let n := nat_of_ascii ch in
  (Nat.leb 9 n && Nat.leb n 13) || Nat.eqb n 32 || Nat.eqb n 160.

Fixpoint trimStart (s : string) : string :=
  match s with
  | EmptyString => EmptyString
  | String ch rest => if isWhiteSpace ch then trimStart rest else s
  end.

(** [trimEnd s] is [s] without its trailing white space. *)
Fixpoint trimEnd (s : string) : string :=
  match s with
  | EmptyString => EmptyString
  | String ch rest =>
      match trimEnd rest with
      | EmptyString => if isWhiteSpace ch then EmptyString
                       else String ch EmptyString
      | kept => String ch kept
      end
  end.

(** [String.prototype.trim] on strings of code units below 256. *)
Definition latin1_trim (s : string) : string := trimEnd (trimStart s).

(** The scenario after its first fulfillment was shipped on 2024-01-02. *)
Definition scenario_shipped : list QueryDoc :=
  commit [scenario_doc]
    (handleShip enUS (onSnapshot [scenario_doc]) 1704153600000
       (deriveStatus (snapshotDoc scenario_doc)) first_key "1Z999").

(** The scenario as the table shows it, before and after the shipment. *)
Definition scenario_sub : Subscription :=
  deriveStatus (snapshotDoc scenario_doc).

Definition scenario_shipped_sub : Subscription :=
  hd scenario_sub (onSnapshot scenario_shipped).

(** The scenario and a subscription whose only fulfillment is shipped. *)
Definition mixed_subscriptions : list Subscription :=
  [ deriveStatus (snapshotDoc (fulfilled_doc "a")); scenario_sub ].

(** The scenario stored a second time, under the id [sub2]: the same key. *)
Definition scenario_twin : Subscription :=
  deriveStatus (snapshotDoc (mkQueryDoc "sub2" (doc_data scenario_doc))).

Definition tied_subscriptions : list Subscription :=
  [ deriveStatus (snapshotDoc (fulfilled_doc "a")); scenario_sub;
    scenario_twin ].

(** * Properties *)

(** ** The calendar model on the scenario dates *)

Example decimal_signed :
  JSDate.decimal 1704067200000 = "1704067200000" /\
  JSDate.decimal 0 = "0" /\
  JSDate.decimal (-2678400000) = "-2678400000".
Proof. vm_compute. repeat split. Qed.

Example addMonths_jan_2024 :
  addMonths JSDate.utc_host 1704067200000 1 = 1706745600000 /\
  addMonths JSDate.utc_host 1704067200000 2 = 1709251200000 /\
  JSDate.toLocaleDateString_enUS JSDate.utc_host 1709251200000 = "3/1/2024".
Proof. vm_compute. repeat split. Qed.

(** A day of month that the target month lacks rolls over into the next one:
    one month after 2024-01-31 is 2024-03-02. *)
Example addMonths_rolls_over :
  JSDate.toLocaleDateString_enUS JSDate.utc_host
    (addMonths JSDate.utc_host 1706659200000 1) = "3/2/2024".
Proof. vm_compute. reflexivity. Qed.

(** The first day of a year counted in cycles of 400, 100, 4 and 1 years
    from 1601. *)
Lemma DayFromYear_cycles (n400 n100 n4 n1 : Z) :
  0 <= n100 <= 3 -> 0 <= n4 <= 24 -> 0 <= n1 <= 3 ->
  JSDate.DayFromYear (1601 + 400 * n400 + 100 * n100 + 4 * n4 + n1)
  = 146097 * n400 + 36524 * n100 + 1461 * n4 + 365 * n1 - 134774.
Proof.
  intros H100 H4 H1. unfold JSDate.DayFromYear.
  Z.div_mod_to_equations. lia.
Qed.

(** [YearFromTime] is what ECMA-262 defines: the year whose first day is the
    last one not after the day of [t]. *)
Lemma YearFromTime_spec (t : Z) :
  JSDate.DayFromYear (JSDate.YearFromTime t) <= JSDate.Day t
  < JSDate.DayFromYear (JSDate.YearFromTime t + 1).
Proof.
  unfold JSDate.YearFromTime. generalize (JSDate.Day t). intros d.
  set (n := d + 134774).
  set (n400 := n / 146097). set (r400 := n mod 146097).
  set (n100 := Z.min (r400 / 36524) 3).
  set (r100 := r400 - 36524 * n100).
  set (n4 := r100 / 1461). set (r4 := r100 mod 1461).
  set (n1 := Z.min (r4 / 365) 3).
  assert (Hn : n = 146097 * n400 + r400 /\ 0 <= r400 < 146097).
  { subst n400 r400. pose proof (Z.div_mod n 146097).
    pose proof (Z.mod_pos_bound n 146097). lia. }
  destruct Hn as [Hn Hr400].
  assert (H100 : 0 <= n100 <= 3 /\ 0 <= r100 /\
                 (n100 < 3 -> r100 < 36524) /\ r100 < 36525).
  { subst n100 r100. pose proof (Z.div_mod r400 36524).
    pose proof (Z.mod_pos_bound r400 36524).
    assert (0 <= r400 / 36524 <= 4)
      by (split; [apply Z.div_pos; lia|apply Z.div_le_upper_bound; lia]).
    destruct (Z.min_spec (r400 / 36524) 3) as [[? Hm]|[? Hm]]; rewrite Hm; lia. }
  destruct H100 as [Hb100 [Hr100 [Hr100a Hr100b]]].
  assert (H4 : r100 = 1461 * n4 + r4 /\ 0 <= r4 < 1461 /\ 0 <= n4 <= 24 /\
               (n100 < 3 -> n4 = 24 -> r4 < 1460)).
  { subst n4 r4. pose proof (Z.div_mod r100 1461).
    pose proof (Z.mod_pos_bound r100 1461).
    assert (0 <= r100 / 1461 < 25)
      by (split; [apply Z.div_pos; lia|apply Z.div_lt_upper_bound; lia]).
    lia. }
  destruct H4 as [Hr4eq [Hr4 [Hb4 Hlast4]]].
  assert (H1 : 0 <= n1 <= 3 /\ 365 * n1 <= r4 /\
               (n1 < 3 -> r4 < 365 * n1 + 365)).
  { subst n1. pose proof (Z.div_mod r4 365).
    pose proof (Z.mod_pos_bound r4 365).
    assert (0 <= r4 / 365 <= 4)
      by (split; [apply Z.div_pos; lia|apply Z.div_le_upper_bound; lia]).
    destruct (Z.min_spec (r4 / 365) 3) as [[? Hm]|[? Hm]]; rewrite Hm; lia. }
  destruct H1 as [Hb1 [Hn1lo Hn1hi]].
  assert (Hd : d = 146097 * n400 + 36524 * n100 + 1461 * n4 + r4 - 134774)
    by (subst r100; lia).
  rewrite DayFromYear_cycles by lia.
  split; [lia|].
  destruct (Z.eq_dec n1 3) as [E1|E1];
    [destruct (Z.eq_dec n4 24) as [E4|E4];
     [destruct (Z.eq_dec n100 3) as [E100|E100]|]|].
  - replace (1601 + 400 * n400 + 100 * n100 + 4 * n4 + n1 + 1)
      with (1601 + 400 * (n400 + 1) + 100 * 0 + 4 * 0 + 0) by lia.
    rewrite DayFromYear_cycles by lia. lia.
  - replace (1601 + 400 * n400 + 100 * n100 + 4 * n4 + n1 + 1)
      with (1601 + 400 * n400 + 100 * (n100 + 1) + 4 * 0 + 0) by lia.
    rewrite DayFromYear_cycles by lia. lia.
  - replace (1601 + 400 * n400 + 100 * n100 + 4 * n4 + n1 + 1)
      with (1601 + 400 * n400 + 100 * n100 + 4 * (n4 + 1) + 0) by lia.
    rewrite DayFromYear_cycles by lia. lia.
  - replace (1601 + 400 * n400 + 100 * n100 + 4 * n4 + n1 + 1)
      with (1601 + 400 * n400 + 100 * n100 + 4 * n4 + (n1 + 1)) by lia.
    rewrite DayFromYear_cycles by lia. lia.
Qed.

Section CalendarFacts.

Import JSDate.

(** The leap days counted by [DayFromYear] grow by one exactly in the years
    [DaysInYear] makes longer. *)
Lemma leap_step_4 (y : Z) :
  (y + 1 - 1969) / 4 = (y - 1969) / 4 + (if y mod 4 =? 0 then 1 else 0).
Proof. destruct (Z.eqb_spec (y mod 4) 0); Z.div_mod_to_equations; lia. Qed.

Lemma leap_step_100 (y : Z) :
  (y + 1 - 1901) / 100 = (y - 1901) / 100 + (if y mod 100 =? 0 then 1 else 0).
Proof. destruct (Z.eqb_spec (y mod 100) 0); Z.div_mod_to_equations; lia. Qed.

Lemma leap_step_400 (y : Z) :
  (y + 1 - 1601) / 400 = (y - 1601) / 400 + (if y mod 400 =? 0 then 1 else 0).
Proof. destruct (Z.eqb_spec (y mod 400) 0); Z.div_mod_to_equations; lia. Qed.

Lemma DayFromYear_succ (y : Z) : DayFromYear (y + 1) = DayFromYear y + DaysInYear y.
Proof.
  unfold DayFromYear, DaysInYear.
  rewrite leap_step_4, leap_step_100, leap_step_400.
  destruct (Z.eqb_spec (y mod 4) 0) as [E4|E4],
           (Z.eqb_spec (y mod 100) 0) as [E100|E100],
           (Z.eqb_spec (y mod 400) 0) as [E400|E400]; cbn [negb]; try lia.
  all: exfalso; clear - E4 E100 E400; Z.div_mod_to_equations; lia.
Qed.

Lemma DayFromYear_lt (y1 y2 : Z) : y1 < y2 -> DayFromYear y1 < DayFromYear y2.
Proof.
  unfold DayFromYear. intros H. Z.div_mod_to_equations. lia.
Qed.

Lemma YearFromTime_unique (t y : Z) :
  DayFromYear y <= Day t < DayFromYear (y + 1) -> YearFromTime t = y.
Proof.
  intros [Hlo Hhi]. pose proof (YearFromTime_spec t) as [Slo Shi].
  destruct (Z.lt_trichotomy (YearFromTime t) y) as [Hlt|[Heq|Hgt]]; [|exact Heq|].
  - assert (YearFromTime t + 1 <= y) by lia.
    destruct (Z.eq_dec (YearFromTime t + 1) y) as [E|E].
    + rewrite E in Shi. lia.
    + pose proof (DayFromYear_lt (YearFromTime t + 1) y). lia.
  - destruct (Z.eq_dec (y + 1) (YearFromTime t)) as [E|E].
    + rewrite E in Hhi. lia.
    + pose proof (DayFromYear_lt (y + 1) (YearFromTime t)). lia.
Qed.

Lemma DaysInYear_leapOf (y : Z) : DaysInYear y = 365 + leapOf y.
Proof.
  unfold leapOf, DaysInYear.
  destruct (y mod 4 =? 0), (y mod 100 =? 0), (y mod 400 =? 0); reflexivity.
Qed.

Lemma leapOf_range (y : Z) : 0 <= leapOf y <= 1.
Proof. unfold leapOf. destruct (DaysInYear y =? 366); lia. Qed.

Lemma Day_MakeDate (day tod : Z) :
  0 <= tod < msPerDay ->
  Day (MakeDate day tod) = day /\ TimeWithinDay (MakeDate day tod) = tod.
Proof.
  intros H. unfold Day, TimeWithinDay, MakeDate, msPerDay in *.
  Z.div_mod_to_equations. lia.
Qed.

Lemma month_cases (m : Z) :
  0 <= m <= 11 ->
  m = 0 \/ m = 1 \/ m = 2 \/ m = 3 \/ m = 4 \/ m = 5 \/ m = 6 \/ m = 7 \/
  m = 8 \/ m = 9 \/ m = 10 \/ m = 11.
Proof. lia. Qed.

(** A day that exists in its month is read back as it was made. *)
Lemma calendar_of_MakeDate (y m dt tod : Z) :
  0 <= m <= 11 ->
  1 <= dt <= DaysInMonth y m ->
  0 <= tod < msPerDay ->
  let t := MakeDate (MakeDay y m dt) tod in
  YearFromTime t = y /\ MonthFromTime t = m /\ DateFromTime t = dt /\
  TimeWithinDay t = tod.
Proof.
  intros Hm Hdt Htod t.
  destruct (Day_MakeDate (MakeDay y m dt) tod Htod) as [Hday Htw].
  fold t in Hday, Htw.
  assert (Hmk : MakeDay y m dt = DayFromYear y + monthStart m (leapOf y) + dt - 1).
  { unfold MakeDay. rewrite Z.div_small, Z.mod_small, Z.add_0_r by lia.
    reflexivity. }
  pose proof (leapOf_range y) as Hl.
  assert (Hy : YearFromTime t = y).
  { apply YearFromTime_unique. rewrite Hday, Hmk, DayFromYear_succ, DaysInYear_leapOf.
    unfold DaysInMonth in Hdt.
    destruct (month_cases m Hm) as [->|[->|[->|[->|[->|[->|[->|[->|[->|[->|[->| ->]]]]]]]]]]];
      cbv beta iota delta [DaysInMonth monthStart] in Hdt |- *; lia. }
  assert (Hdw : DayWithinYear t = monthStart m (leapOf y) + dt - 1).
  { unfold DayWithinYear. rewrite Hday, Hy, Hmk. lia. }
  assert (Hleap : InLeapYear t = leapOf y).
  { unfold InLeapYear, leapOf. now rewrite Hy. }
  assert (Hmonth : MonthFromTime t = m).
  { unfold MonthFromTime. rewrite Hdw, Hleap. unfold DaysInMonth in Hdt.
    destruct (month_cases m Hm) as [->|[->|[->|[->|[->|[->|[->|[->|[->|[->|[->| ->]]]]]]]]]]];
      cbv beta iota delta [DaysInMonth monthStart] in Hdt |- *;
      repeat match goal with
             | |- context [?a <? ?b] => destruct (Z.ltb_spec a b); try lia
             end. }
  repeat split; try assumption.
  unfold DateFromTime. rewrite Hdw, Hmonth, Hleap. lia.
Qed.

(** Every time value lies on a day of a month. *)
Lemma calendar_valid (t : Z) :
  0 <= MonthFromTime t <= 11 /\
  1 <= DateFromTime t <= DaysInMonth (YearFromTime t) (MonthFromTime t) /\
  0 <= TimeWithinDay t < msPerDay.
Proof.
  pose proof (YearFromTime_spec t) as [Hlo Hhi].
  rewrite DayFromYear_succ, DaysInYear_leapOf in Hhi.
  pose proof (leapOf_range (YearFromTime t)) as Hl.
  assert (Hdw : 0 <= DayWithinYear t < 365 + leapOf (YearFromTime t))
    by (unfold DayWithinYear; lia).
  assert (Hleap : InLeapYear t = leapOf (YearFromTime t)) by reflexivity.
  split; [|split].
  - unfold MonthFromTime.
    repeat match goal with
           | |- context [?a <? ?b] => destruct (Z.ltb_spec a b); try lia
           end.
  - unfold DateFromTime, MonthFromTime. rewrite Hleap.
    repeat match goal with
           | |- context [?a <? ?b] =>
               destruct (Z.ltb_spec a b);
               cbv beta iota delta [DaysInMonth monthStart]; try lia
           end.
  - unfold TimeWithinDay, msPerDay. apply Z.mod_pos_bound. lia.
Qed.

Lemma MakeDay_normalize (y month dt : Z) :
  MakeDay y month dt = MakeDay (y + month / 12) (month mod 12) dt.
Proof.
  unfold MakeDay.
  pose proof (Z.mod_pos_bound month 12 ltac:(lia)) as Hb.
  rewrite (Z.div_small (month mod 12) 12), (Z.mod_small (month mod 12) 12), Z.add_0_r by lia.
  reflexivity.
Qed.

(** On a host with a constant offset from UTC, [addMonths(t, i)] is the same
    day of month and time of day [i] calendar months later, provided that
    month has such a day (otherwise [MakeDay] counts on into the month after,
    see [addMonths_rolls_over]). *)
Lemma addMonths_calendar (LocalTZA : Z -> bool -> Z) (c t i : Z) :
  (forall t0 b, LocalTZA t0 b = c) ->
  let t' := LocalTime LocalTZA t in
  let r := LocalTime LocalTZA (addMonths LocalTZA t i) in
  let y' := YearFromTime t' + (MonthFromTime t' + i) / 12 in
  let m' := (MonthFromTime t' + i) mod 12 in
  DateFromTime t' <= DaysInMonth y' m' ->
  YearFromTime r = y' /\ MonthFromTime r = m' /\
  DateFromTime r = DateFromTime t' /\ TimeWithinDay r = TimeWithinDay t'.
Proof.
  intros Hc t' r y' m' Hfit.
  destruct (calendar_valid t') as [_ [[Hd1 _] Htod]].
  assert (Hr : r = MakeDate (MakeDay y' m' (DateFromTime t')) (TimeWithinDay t')).
  { unfold r, addMonths, setMonth, getMonth, UTC.
    unfold LocalTime at 1. rewrite !Hc. fold t'.
    rewrite MakeDay_normalize. apply Z.sub_add. }
  rewrite Hr. apply calendar_of_MakeDate.
  - pose proof (Z.mod_pos_bound (MonthFromTime t' + i) 12 ltac:(lia)) as Hb.
    fold m' in Hb. lia.
  - lia.
  - exact Htod.
Qed.

End CalendarFacts.

(** ** Status derivation *)

Lemma allFulfilled_Forall (sub : Subscription) :
  allFulfilled sub = true <-> Forall Shipped (fulfillments sub).
Proof.
  unfold allFulfilled, Shipped. rewrite forallb_forall, Forall_forall.
  split; intros H f Hf; specialize (H f Hf); now apply String.eqb_eq.
Qed.

Lemma requiresAction_Exists (sub : Subscription) :
  requiresAction sub = true <-> Exists RxReceived (fulfillments sub).
Proof.
  unfold requiresAction, RxReceived. rewrite existsb_exists, Exists_exists.
  split; intros [f [Hf H]]; exists f; split; auto; now apply String.eqb_eq.
Qed.

Lemma allFulfilled_false (sub : Subscription) :
  allFulfilled sub = false <-> ~ Forall Shipped (fulfillments sub).
Proof.
  rewrite <- allFulfilled_Forall. destruct (allFulfilled sub); intuition congruence.
Qed.

Lemma requiresAction_false (sub : Subscription) :
  requiresAction sub = false <-> ~ Exists RxReceived (fulfillments sub).
Proof.
  rewrite <- requiresAction_Exists.
  destruct (requiresAction sub); intuition congruence.
Qed.

Lemma overallStatus_on_hold (sub : Subscription) :
  sub_status sub = "On Hold" -> overallStatus sub = "On Hold".
Proof. intros H. unfold overallStatus. now rewrite H. Qed.

Lemma overallStatus_derived (sub : Subscription) :
  sub_status sub <> "On Hold" ->
  overallStatus sub =
    if allFulfilled sub then "Fulfilled"
    else if requiresAction sub then "Action Required" else "Active".
Proof.
  intros H. unfold overallStatus.
  apply String.eqb_neq in H. now rewrite H.
Qed.

(** C1: the status the snapshot handler stores for a document is 'On Hold'
    when the stored status is 'On Hold', whatever the fulfillments; otherwise
    'Fulfilled' when every fulfillment is 'Shipped'; otherwise
    'Action Required' when some fulfillment is 'RX Received'; otherwise
    'Active'. *)
Theorem derived_status_priority (doc : QueryDoc) :
  let sub := snapshotDoc doc in
  let derived := sub_status (deriveStatus sub) in
  (data_status (doc_data doc) = "On Hold" -> derived = "On Hold") /\
  (data_status (doc_data doc) <> "On Hold" ->
     Forall Shipped (fulfillments sub) -> derived = "Fulfilled") /\
  (data_status (doc_data doc) <> "On Hold" ->
     ~ Forall Shipped (fulfillments sub) ->
     Exists RxReceived (fulfillments sub) -> derived = "Action Required") /\
  (data_status (doc_data doc) <> "On Hold" ->
     ~ Forall Shipped (fulfillments sub) ->
     ~ Exists RxReceived (fulfillments sub) -> derived = "Active").
Proof.
  intros sub derived.
  assert (Hd : derived = overallStatus sub) by reflexivity.
  assert (Hs : sub_status sub = data_status (doc_data doc)) by reflexivity.
  rewrite Hd, <- Hs. repeat split.
  - apply overallStatus_on_hold.
  - intros Hh Hall. rewrite overallStatus_derived by assumption.
    apply allFulfilled_Forall in Hall. now rewrite Hall.
  - intros Hh Hall Hrx. rewrite overallStatus_derived by assumption.
    apply allFulfilled_false in Hall. apply requiresAction_Exists in Hrx.
    now rewrite Hall, Hrx.
  - intros Hh Hall Hrx. rewrite overallStatus_derived by assumption.
    apply allFulfilled_false in Hall. apply requiresAction_false in Hrx.
    now rewrite Hall, Hrx.
Qed.

(** C9: a document without fulfillments (the array absent or empty) whose
    stored status is not 'On Hold' is given the status 'Fulfilled'. *)
Theorem empty_fulfillments_fulfilled (doc : QueryDoc) :
  fulfillments (snapshotDoc doc) = [] ->
  data_status (doc_data doc) <> "On Hold" ->
  sub_status (deriveStatus (snapshotDoc doc)) = "Fulfilled".
Proof.
  intros Hempty Hh.
  change (overallStatus (snapshotDoc doc) = "Fulfilled").
  rewrite overallStatus_derived by exact Hh.
  unfold allFulfilled. now rewrite Hempty.
Qed.

Lemma empty_fulfillments_fulfilled_witness :
  sub_status (deriveStatus (snapshotDoc doc_without_fulfillments)) = "Fulfilled".
Proof.
  apply (empty_fulfillments_fulfilled doc_without_fulfillments).
  - reflexivity.
  - discriminate.
Defined.

(** ** Creation *)

Section CreationFacts.

Variable LocalTZA : Z -> bool -> Z.
Variables (startDateNow rxNow logNow : Z).

Let newF := newFulfillment LocalTZA startDateNow rxNow.
Let push := pushFulfillments LocalTZA startDateNow rxNow.

Lemma pushFulfillments_length (n : nat) (i : Z) (acc : list Fulfillment) :
  length (push n i acc) = (length acc + n)%nat.
Proof.
  revert i acc. induction n as [|n IH]; intros i acc; simpl.
  - lia.
  - unfold push in IH. rewrite IH, length_app. simpl. lia.
Qed.

Lemma pushFulfillments_old (n : nat) (i : Z) (acc : list Fulfillment) (k : nat) :
  (k < length acc)%nat ->
  nth_error (push n i acc) k = nth_error acc k.
Proof.
  revert i acc. induction n as [|n IH]; intros i acc Hk; simpl.
  - reflexivity.
  - unfold push in IH. rewrite IH.
    + now apply nth_error_app1.
    + rewrite length_app. simpl. lia.
Qed.

Lemma pushFulfillments_new (n : nat) (i : Z) (acc : list Fulfillment) (k : nat) :
  (k < n)%nat ->
  nth_error (push n i acc) (length acc + k) = Some (newF (i + Z.of_nat k)).
Proof.
  revert i acc k. induction n as [|n IH]; intros i acc k Hk; [lia|].
  simpl. destruct k as [|k].
  - fold push. rewrite pushFulfillments_old.
    + rewrite Nat.add_0_r, nth_error_app2, Nat.sub_diag by lia.
      simpl. now rewrite Z.add_0_r.
    + rewrite length_app. simpl. lia.
  - unfold push in IH.
    replace (length acc + S k)%nat
      with (length (acc ++ [newFulfillment LocalTZA startDateNow rxNow i]) + k)%nat
      by (rewrite length_app; simpl; lia).
    rewrite IH by lia. f_equal. f_equal. lia.
Qed.

Lemma handleSubmit_create_fulfillments (formData : FormData) :
  data_fulfillments
    (handleSubmit_create LocalTZA startDateNow rxNow logNow formData)
  = Some (push (Z.to_nat (form_duration formData)) 0 []).
Proof. reflexivity. Qed.

End CreationFacts.

(** ** The collection under [updateDoc] *)

Lemma fulfillments_patched_fs (fs : list Fulfillment) (d : QueryDoc) :
  fulfillments (snapshotDoc (patched (SetFulfillments fs) d)) = fs.
Proof. reflexivity. Qed.

Lemma fulfillments_patched_log (log : list LogEntry) (d : QueryDoc) :
  fulfillments (snapshotDoc (patched (SetCommunicationLog log) d))
  = fulfillments (snapshotDoc d).
Proof. reflexivity. Qed.

Lemma communicationLog_patched_fs (fs : list Fulfillment) (d : QueryDoc) :
  communicationLog (snapshotDoc (patched (SetFulfillments fs) d))
  = communicationLog (snapshotDoc d).
Proof. reflexivity. Qed.

Lemma communicationLog_patched_log (log : list LogEntry) (d : QueryDoc) :
  communicationLog (snapshotDoc (patched (SetCommunicationLog log) d)) = log.
Proof. reflexivity. Qed.

Lemma updateDoc_ids (docs : list QueryDoc) (w : write) :
  map doc_id (updateDoc docs w) = map doc_id docs.
Proof.
  unfold updateDoc. rewrite map_map. apply map_ext.
  intros d. now destruct (String.eqb (doc_id d) (fst w)).
Qed.

Lemma getDoc_updateDoc_same (docs : list QueryDoc) (subId : string) (p : fieldPatch) :
  getDoc subId (updateDoc docs (subId, p))
  = option_map (patched p) (getDoc subId docs).
Proof.
  unfold getDoc, updateDoc. induction docs as [|d docs IH]; simpl.
  - reflexivity.
  - destruct (String.eqb (doc_id d) subId) eqn:E; simpl; rewrite E.
    + reflexivity.
    + exact IH.
Qed.

Lemma getDoc_updateDoc_other (docs : list QueryDoc) (subId other : string)
    (p : fieldPatch) :
  other <> subId ->
  getDoc other (updateDoc docs (subId, p)) = getDoc other docs.
Proof.
  intros Hne. unfold getDoc, updateDoc.
  induction docs as [|d docs IH]; simpl.
  - reflexivity.
  - destruct (String.eqb (doc_id d) subId) eqn:E; simpl.
    + apply String.eqb_eq in E.
      assert (String.eqb (doc_id d) other = false) as ->
        by (apply String.eqb_neq; congruence).
      exact IH.
    + destruct (String.eqb (doc_id d) other); [reflexivity|exact IH].
Qed.

Lemma find_onSnapshot (docs : list QueryDoc) (subId : string) :
  find (fun s => String.eqb (id s) subId) (onSnapshot docs)
  = option_map (fun d => deriveStatus (snapshotDoc d)) (getDoc subId docs).
Proof.
  unfold onSnapshot, getDoc. rewrite map_map.
  induction docs as [|d docs IH]; simpl.
  - reflexivity.
  - destruct (String.eqb (doc_id d) subId); [reflexivity|exact IH].
Qed.

Lemma getDoc_id (docs : list QueryDoc) (subId : string) (d : QueryDoc) :
  getDoc subId docs = Some d -> doc_id d = subId.
Proof.
  intros H. apply find_some in H. now apply String.eqb_eq.
Qed.

Lemma getDoc_In_NoDup (docs : list QueryDoc) (d : QueryDoc) :
  NoDup (map doc_id docs) -> In d docs -> getDoc (doc_id d) docs = Some d.
Proof.
  unfold getDoc. induction docs as [|d0 docs IH]; simpl; intros Hnd Hin.
  - contradiction.
  - inversion Hnd as [|? ? Hnotin Hnd']; subst.
    destruct Hin as [->|Hin].
    + now rewrite String.eqb_refl.
    + destruct (String.eqb (doc_id d0) (doc_id d)) eqn:E.
      * apply String.eqb_eq in E. exfalso. apply Hnotin. rewrite E.
        now apply in_map.
      * now apply IH.
Qed.

(** ** Fulfillment transitions *)

Section TransitionFacts.

Variable toLocaleDateString : Z -> string.

(** The writes [updateFulfillment] issues when the state holds the last
    snapshot of [docs] and the document [subId] exists. *)
Lemma updateFulfillment_writes (docs : list QueryDoc) (now : Z)
    (subId : string) (d : QueryDoc) (key : Fulfillment) (newStatus : string)
    (tracking' : option string) :
  getDoc subId docs = Some d ->
  updateFulfillment toLocaleDateString (onSnapshot docs) now
                    subId key newStatus tracking'
  = [ (subId,
       SetCommunicationLog
         (communicationLog (snapshotDoc d)
            ++ [ {| date := now;
                    message := logMessage toLocaleDateString key newStatus
                                          tracking';
                    actor := if String.eqb newStatus "Shipped"
                             then "Pharmacy Staff" else "System" |} ]));
      (subId,
       SetFulfillments
         (map (updateOne key newStatus tracking')
              (fulfillments (snapshotDoc d)))) ].
Proof.
  intros Hd. unfold updateFulfillment, addLog.
  rewrite find_onSnapshot, Hd. reflexivity.
Qed.

Lemma updateFulfillment_unknown_sub (docs : list QueryDoc) (now : Z)
    (subId : string) (key : Fulfillment) (newStatus : string)
    (tracking' : option string) :
  getDoc subId docs = None ->
  updateFulfillment toLocaleDateString (onSnapshot docs) now
                    subId key newStatus tracking' = [].
Proof.
  intros Hd. unfold updateFulfillment.
  rewrite find_onSnapshot, Hd. reflexivity.
Qed.

(** The document [subId] after the handler's writes. *)
Lemma getDoc_after_updateFulfillment (docs : list QueryDoc) (now : Z)
    (subId : string) (d : QueryDoc) (key : Fulfillment) (newStatus : string)
    (tracking' : option string) :
  getDoc subId docs = Some d ->
  getDoc subId
    (commit docs (updateFulfillment toLocaleDateString (onSnapshot docs) now
                                    subId key newStatus tracking'))
  = Some
      (patched
         (SetFulfillments
            (map (updateOne key newStatus tracking')
                 (fulfillments (snapshotDoc d))))
         (patched
            (SetCommunicationLog
               (communicationLog (snapshotDoc d)
                  ++ [ {| date := now;
                          message := logMessage toLocaleDateString key
                                                newStatus tracking';
                          actor := if String.eqb newStatus "Shipped"
                                   then "Pharmacy Staff" else "System" |} ]))
            d)).
Proof.
  intros Hd. rewrite (updateFulfillment_writes _ _ _ d) by exact Hd.
  unfold commit. simpl.
  rewrite !getDoc_updateDoc_same, Hd. reflexivity.
Qed.

Lemma getDoc_other_after_updateFulfillment (docs : list QueryDoc) (now : Z)
    (subId other : string) (key : Fulfillment) (newStatus : string)
    (tracking' : option string) :
  other <> subId ->
  getDoc other
    (commit docs (updateFulfillment toLocaleDateString (onSnapshot docs) now
                                    subId key newStatus tracking'))
  = getDoc other docs.
Proof.
  intros Hne. destruct (getDoc subId docs) as [d|] eqn:Hd.
  - rewrite (updateFulfillment_writes _ _ _ d) by exact Hd.
    unfold commit. simpl. now rewrite !getDoc_updateDoc_other.
  - now rewrite updateFulfillment_unknown_sub.
Qed.

Lemma updateOne_match (key : Fulfillment) (newStatus : string)
    (tracking' : option string) (f : Fulfillment) :
  fulfillmentDate f = fulfillmentDate key ->
  updateOne key newStatus tracking' f
  = {| fulfillmentDate := fulfillmentDate f;
       status := newStatus;
       tracking := match tracking' with
                   | Some t => Some t
                   | None => tracking f
                   end;
       rxId := rxId f |}.
Proof. intros H. unfold updateOne. now rewrite H, Z.eqb_refl. Qed.

Lemma updateOne_no_match (key : Fulfillment) (newStatus : string)
    (tracking' : option string) (f : Fulfillment) :
  fulfillmentDate f <> fulfillmentDate key ->
  updateOne key newStatus tracking' f = f.
Proof.
  intros H. unfold updateOne. apply Z.eqb_neq in H. now rewrite H.
Qed.

Lemma updateOne_idempotent (key : Fulfillment) (newStatus : string)
    (tracking' : option string) (f : Fulfillment) :
  updateOne key newStatus tracking' (updateOne key newStatus tracking' f)
  = updateOne key newStatus tracking' f.
Proof.
  unfold updateOne.
  destruct (fulfillmentDate f =? fulfillmentDate key) eqn:E; simpl; rewrite E.
  - now destruct tracking'.
  - reflexivity.
Qed.

End TransitionFacts.

Lemma append_empty_r (s : string) : (s ++ "")%string = s.
Proof. induction s as [|c s IH]; simpl; [reflexivity|now rewrite IH]. Qed.

Lemma append_assoc (a b c : string) :
  ((a ++ b) ++ c = a ++ (b ++ c))%string.
Proof. induction a as [|x a IH]; simpl; [reflexivity|now rewrite IH]. Qed.

(** C2: a transition whose key equals the date of a fulfillment of the
    document gives that fulfillment the new status, gives it the supplied
    tracking when one is supplied and keeps its tracking otherwise; the same
    transition applied once more leaves the fulfillments as they are. *)
Theorem transition_updates_matching
    (toLocaleDateString : Z -> string) (docs : list QueryDoc) (now : Z)
    (subId : string) (d : QueryDoc) (key : Fulfillment) (newStatus : string)
    (tracking' : option string) (i : nat) (f : Fulfillment) :
  getDoc subId docs = Some d ->
  nth_error (fulfillments (snapshotDoc d)) i = Some f ->
  fulfillmentDate f = fulfillmentDate key ->
  let docs' := afterUpdateFulfillment toLocaleDateString docs now subId key
                                      newStatus tracking' in
  exists d',
    getDoc subId docs' = Some d' /\
    nth_error (fulfillments (snapshotDoc d')) i
    = Some {| fulfillmentDate := fulfillmentDate f;
              status := newStatus;
              tracking := match tracking' with
                          | Some t => Some t
                          | None => tracking f
                          end;
              rxId := rxId f |} /\
    forall now2,
      let docs'' := afterUpdateFulfillment toLocaleDateString docs' now2 subId
                                           key newStatus tracking' in
      exists d'',
        getDoc subId docs'' = Some d'' /\
        fulfillments (snapshotDoc d'') = fulfillments (snapshotDoc d').
Proof.
  intros Hd Hf Hkey docs'. unfold afterUpdateFulfillment in docs'.
  pose proof (getDoc_after_updateFulfillment toLocaleDateString docs now subId
                d key newStatus tracking' Hd) as Hd'.
  fold docs' in Hd'.
  eexists. split; [exact Hd'|]. split.
  - rewrite fulfillments_patched_fs, nth_error_map, Hf. simpl.
    now rewrite updateOne_match.
  - intros now2 docs''. unfold afterUpdateFulfillment in docs''.
    pose proof (getDoc_after_updateFulfillment toLocaleDateString docs' now2
                  subId _ key newStatus tracking' Hd') as Hd''.
    fold docs'' in Hd''.
    eexists. split; [exact Hd''|].
    rewrite !fulfillments_patched_fs, map_map. apply map_ext.
    intros g. apply updateOne_idempotent.
Qed.

(** C3: one invocation of [updateFulfillment] on an existing document
    appends exactly one entry to its communication log; for 'Shipped' the
    actor is 'Pharmacy Staff' and the message contains the formatted date and
    the tracking value; for another status the actor is 'System' and the
    message contains the formatted date and the status name. *)
Theorem transition_appends_one_log_entry
    (toLocaleDateString : Z -> string) (docs : list QueryDoc) (now : Z)
    (subId : string) (d : QueryDoc) (key : Fulfillment) (newStatus : string)
    (tracking' : option string) :
  getDoc subId docs = Some d ->
  let docs' := afterUpdateFulfillment toLocaleDateString docs now subId key
                                      newStatus tracking' in
  let formatted := formatDate toLocaleDateString (Some (fulfillmentDate key)) in
  exists d' entry,
    getDoc subId docs' = Some d' /\
    communicationLog (snapshotDoc d')
    = communicationLog (snapshotDoc d) ++ [entry] /\
    date entry = now /\
    (newStatus = "Shipped" ->
       actor entry = "Pharmacy Staff" /\
       contains formatted (message entry) /\
       contains (interpolate tracking') (message entry)) /\
    (newStatus <> "Shipped" ->
       actor entry = "System" /\
       contains formatted (message entry) /\
       contains newStatus (message entry)).
Proof.
  intros Hd docs' formatted. unfold afterUpdateFulfillment in docs'.
  pose proof (getDoc_after_updateFulfillment toLocaleDateString docs now subId
                d key newStatus tracking' Hd) as Hd'.
  fold docs' in Hd'.
  eexists. eexists. split; [exact Hd'|].
  split; [reflexivity|]. split; [reflexivity|].
  cbn [actor message]. unfold logMessage. fold formatted. split.
  - intros ->. rewrite String.eqb_refl. split; [reflexivity|]. split.
    + exists "Marked fulfillment for "%string,
        (" as Shipped. Tracking: " ++ interpolate tracking')%string.
      reflexivity.
    + exists ("Marked fulfillment for " ++ formatted
              ++ " as Shipped. Tracking: ")%string, ""%string.
      rewrite append_empty_r, !append_assoc. reflexivity.
  - intros Hne. apply String.eqb_neq in Hne. rewrite Hne.
    split; [reflexivity|]. split.
    + exists "Updated fulfillment for "%string,
        (" to status: " ++ newStatus ++ ".")%string.
      reflexivity.
    + exists ("Updated fulfillment for " ++ formatted ++ " to status: ")%string,
        "."%string.
      rewrite !append_assoc. reflexivity.
Qed.

Example scenario_created :
  option_map (map (fun f => (enUS (fulfillmentDate f), status f)))
             (data_fulfillments (doc_data scenario_doc))
  = Some [ ("1/1/2024", "RX Received"); ("2/1/2024", "Scheduled");
           ("3/1/2024", "Scheduled") ] /\
  map sub_status (onSnapshot [scenario_doc]) = ["Action Required"].
Proof. vm_compute. split; reflexivity. Qed.

(** C4 as stated fails: a transition whose key matches no fulfillment of the
    scenario document still changes the document, its communication log
    grows from one entry to two. *)
Lemma unknown_key_is_not_a_noop :
  (forall f, In f (fulfillments (snapshotDoc scenario_doc)) ->
             fulfillmentDate f <> fulfillmentDate unknown_key) /\
  afterUpdateFulfillment enUS [scenario_doc] 1704153600000 "sub1" unknown_key
                         "Intake Sent" None
  <> [scenario_doc] /\
  map (fun s => length (communicationLog s)) (onSnapshot [scenario_doc])
  = [1%nat] /\
  map (fun s => length (communicationLog s))
      (onSnapshot (afterUpdateFulfillment enUS [scenario_doc] 1704153600000
                                          "sub1" unknown_key "Intake Sent" None))
  = [2%nat].
Proof.
  split; [|split; [|split]].
  - intros f Hf. vm_compute in Hf.
    destruct Hf as [<-|[<-|[<-|[]]]]; vm_compute; discriminate.
  - vm_compute. discriminate.
  - vm_compute. reflexivity.
  - vm_compute. reflexivity.
Qed.

(** C4, amended: a transition whose key matches no fulfillment of an existing
    document leaves its fulfillments and the other documents unchanged and
    raises nothing, and still appends the transition's entry to its
    communication log. *)
Theorem unknown_key_keeps_fulfillments
    (toLocaleDateString : Z -> string) (docs : list QueryDoc) (now : Z)
    (subId : string) (d : QueryDoc) (key : Fulfillment) (newStatus : string)
    (tracking' : option string) :
  getDoc subId docs = Some d ->
  (forall f, In f (fulfillments (snapshotDoc d)) ->
             fulfillmentDate f <> fulfillmentDate key) ->
  let docs' := afterUpdateFulfillment toLocaleDateString docs now subId key
                                      newStatus tracking' in
  (exists d',
     getDoc subId docs' = Some d' /\
     fulfillments (snapshotDoc d') = fulfillments (snapshotDoc d) /\
     communicationLog (snapshotDoc d')
     = communicationLog (snapshotDoc d)
         ++ [ {| date := now;
                 message := logMessage toLocaleDateString key newStatus
                                       tracking';
                 actor := if String.eqb newStatus "Shipped"
                          then "Pharmacy Staff" else "System" |} ] /\
     sub_status (snapshotDoc d') = sub_status (snapshotDoc d) /\
     duration (snapshotDoc d') = duration (snapshotDoc d)) /\
  (forall other, other <> subId -> getDoc other docs' = getDoc other docs).
Proof.
  intros Hd Hkey docs'. unfold afterUpdateFulfillment in docs'. split.
  - pose proof (getDoc_after_updateFulfillment toLocaleDateString docs now
                  subId d key newStatus tracking' Hd) as Hd'.
    fold docs' in Hd'.
    eexists. split; [exact Hd'|]. split; [|repeat split].
    rewrite fulfillments_patched_fs.
    rewrite <- (map_id (fulfillments (snapshotDoc d))) at 2.
    apply map_ext_in. intros f Hf.
    apply updateOne_no_match. now apply Hkey.
  - intros other Hne. now apply getDoc_other_after_updateFulfillment.
Qed.

Lemma unknown_key_keeps_fulfillments_witness :
  exists d',
    getDoc "sub1"
      (afterUpdateFulfillment enUS [scenario_doc] 1704153600000 "sub1"
                              unknown_key "Intake Sent" None) = Some d' /\
    fulfillments (snapshotDoc d') = fulfillments (snapshotDoc scenario_doc).
Proof.
  destruct (unknown_key_keeps_fulfillments enUS [scenario_doc] 1704153600000
              "sub1" scenario_doc unknown_key "Intake Sent" None)
    as [[d' [Hd' [Hfs _]]] _].
  - reflexivity.
  - intros f Hf. vm_compute in Hf.
    destruct Hf as [<-|[<-|[<-|[]]]]; vm_compute; discriminate.
  - exists d'. split; [exact Hd'|exact Hfs].
Defined.

Lemma transition_updates_matching_witness :
  exists d',
    getDoc "sub1"
      (afterUpdateFulfillment enUS [scenario_doc] 1704153600000 "sub1"
                              first_key "Shipped" (Some "1Z999")) = Some d' /\
    nth_error (fulfillments (snapshotDoc d')) 0
    = Some (mkFulfillment 1704067200000 "Shipped" (Some "1Z999")
                          (Some "RX-INITIAL-1704067200000")).
Proof.
  destruct (transition_updates_matching enUS [scenario_doc] 1704153600000
              "sub1" scenario_doc first_key "Shipped" (Some "1Z999") 0 first_key)
    as [d' [Hd' [Hnth _]]].
  - reflexivity.
  - reflexivity.
  - reflexivity.
  - exists d'. split; [exact Hd'|exact Hnth].
Defined.

Lemma transition_appends_one_log_entry_witness :
  exists d' entry,
    getDoc "sub1"
      (afterUpdateFulfillment enUS [scenario_doc] 1704153600000 "sub1"
                              first_key "Shipped" (Some "1Z999")) = Some d' /\
    communicationLog (snapshotDoc d')
    = communicationLog (snapshotDoc scenario_doc) ++ [entry] /\
    actor entry = "Pharmacy Staff" /\
    contains "1/1/2024" (message entry) /\
    contains "1Z999" (message entry).
Proof.
  destruct (transition_appends_one_log_entry enUS [scenario_doc] 1704153600000
              "sub1" scenario_doc first_key "Shipped" (Some "1Z999"))
    as [d' [entry [Hd' [Hlog [_ [Hship _]]]]]].
  - reflexivity.
  - destruct (Hship eq_refl) as [Hactor [Hdate Htrack]].
    exists d', entry. repeat split; assumption.
Defined.

Example scenario_shipped_message :
  map (fun s => map message (communicationLog s))
      (onSnapshot (afterUpdateFulfillment enUS [scenario_doc] 1704153600000
                     "sub1" first_key "Shipped" (Some "1Z999")))
  = [ [ "Subscription created.";
        "Marked fulfillment for 1/1/2024 as Shipped. Tracking: 1Z999" ] ] /\
  map sub_status
      (onSnapshot (afterUpdateFulfillment enUS [scenario_doc] 1704153600000
                     "sub1" first_key "Shipped" (Some "1Z999")))
  = [ "Active" ].
Proof. vm_compute. split; reflexivity. Qed.

(** C10: when two fulfillments of the document carry the date of the key,
    the transition gives both of them the new status and the tracking rule,
    not only the first. *)
Theorem transition_updates_every_match
    (toLocaleDateString : Z -> string) (docs : list QueryDoc) (now : Z)
    (subId : string) (d : QueryDoc) (key : Fulfillment) (newStatus : string)
    (tracking' : option string) (i j : nat) (fi fj : Fulfillment) :
  getDoc subId docs = Some d ->
  i <> j ->
  nth_error (fulfillments (snapshotDoc d)) i = Some fi ->
  nth_error (fulfillments (snapshotDoc d)) j = Some fj ->
  fulfillmentDate fi = fulfillmentDate key ->
  fulfillmentDate fj = fulfillmentDate key ->
  let docs' := afterUpdateFulfillment toLocaleDateString docs now subId key
                                      newStatus tracking' in
  let new_tracking f := match tracking' with
                        | Some t => Some t
                        | None => tracking f
                        end in
  exists d' fi' fj',
    getDoc subId docs' = Some d' /\
    nth_error (fulfillments (snapshotDoc d')) i = Some fi' /\
    nth_error (fulfillments (snapshotDoc d')) j = Some fj' /\
    status fi' = newStatus /\ tracking fi' = new_tracking fi /\
    status fj' = newStatus /\ tracking fj' = new_tracking fj.
Proof.
  intros Hd Hij Hi Hj Hki Hkj docs' new_tracking.
  unfold afterUpdateFulfillment in docs'.
  pose proof (getDoc_after_updateFulfillment toLocaleDateString docs now subId
                d key newStatus tracking' Hd) as Hd'.
  fold docs' in Hd'.
  eexists. exists (updateOne key newStatus tracking' fi),
                  (updateOne key newStatus tracking' fj).
  split; [exact Hd'|].
  rewrite fulfillments_patched_fs, !nth_error_map, Hi, Hj.
  rewrite !updateOne_match by assumption.
  cbn [option_map]. rewrite !updateOne_match by assumption.
  repeat split.
Qed.

Lemma transition_updates_every_match_witness :
  exists d',
    getDoc "dup"
      (afterUpdateFulfillment enUS [duplicate_dates_doc] 1704153600000 "dup"
                              first_key "Shipped" (Some "1Z999")) = Some d' /\
    map status (fulfillments (snapshotDoc d')) = ["Shipped"; "Shipped"] /\
    map tracking (fulfillments (snapshotDoc d')) = [Some "1Z999"; Some "1Z999"].
Proof.
  destruct (transition_updates_every_match enUS [duplicate_dates_doc]
              1704153600000 "dup" duplicate_dates_doc first_key "Shipped"
              (Some "1Z999") 0 1
              (mkFulfillment 1704067200000 "RX Received" None (Some "RX-1"))
              (mkFulfillment 1704067200000 "Scheduled" None None))
    as [d' [fi' [fj' [Hd' _]]]].
  - reflexivity.
  - discriminate.
  - reflexivity.
  - reflexivity.
  - reflexivity.
  - reflexivity.
  - exists d'. split; [exact Hd'|].
    vm_compute in Hd'. injection Hd' as <-. split; reflexivity.
Defined.

(** ** The fulfillment count *)

Lemma commit_ids (ws : list write) (docs : list QueryDoc) :
  map doc_id (commit docs ws) = map doc_id docs.
Proof.
  unfold commit. revert docs. induction ws as [|w ws IH]; intros docs; simpl.
  - reflexivity.
  - now rewrite IH, updateDoc_ids.
Qed.

Lemma counts_updateDoc_log (docs : list QueryDoc) (subId : string)
    (log : list LogEntry) :
  counts (updateDoc docs (subId, SetCommunicationLog log)) = counts docs.
Proof.
  unfold counts, onSnapshot, updateDoc. rewrite !map_map. apply map_ext.
  intros d. simpl. now destruct (String.eqb (doc_id d) subId).
Qed.

Lemma counts_updateDoc_fulfillments (docs : list QueryDoc) (subId : string)
    (d0 : QueryDoc) (fs : list Fulfillment) :
  NoDup (map doc_id docs) ->
  getDoc subId docs = Some d0 ->
  length fs = length (fulfillments (snapshotDoc d0)) ->
  counts (updateDoc docs (subId, SetFulfillments fs)) = counts docs.
Proof.
  intros Hnd Hd0 Hlen.
  unfold counts, onSnapshot, updateDoc. rewrite !map_map. apply map_ext_in.
  intros d Hin. simpl.
  destruct (String.eqb (doc_id d) subId) eqn:E; [|reflexivity].
  apply String.eqb_eq in E.
  pose proof (getDoc_In_NoDup docs d Hnd Hin) as Hd.
  rewrite E, Hd0 in Hd. injection Hd as ->.
  simpl. f_equal. exact Hlen.
Qed.

Lemma counts_afterAddLog (docs : list QueryDoc) (now : Z)
    (subId message actor : string) :
  counts (afterAddLog docs now subId message actor) = counts docs.
Proof.
  unfold afterAddLog, addLog. rewrite find_onSnapshot.
  destruct (getDoc subId docs) as [d|]; simpl.
  - apply counts_updateDoc_log.
  - reflexivity.
Qed.

Lemma counts_afterUpdateFulfillment (toLocaleDateString : Z -> string)
    (docs : list QueryDoc) (now : Z) (subId : string) (key : Fulfillment)
    (newStatus : string) (tracking' : option string) :
  NoDup (map doc_id docs) ->
  counts (afterUpdateFulfillment toLocaleDateString docs now subId key
                                 newStatus tracking') = counts docs.
Proof.
  intros Hnd. unfold afterUpdateFulfillment.
  destruct (getDoc subId docs) as [d|] eqn:Hd.
  - rewrite (updateFulfillment_writes _ _ _ _ d) by exact Hd.
    unfold commit. simpl.
    erewrite counts_updateDoc_fulfillments.
    + apply counts_updateDoc_log.
    + now rewrite updateDoc_ids.
    + rewrite getDoc_updateDoc_same, Hd. reflexivity.
    + rewrite fulfillments_patched_log. apply length_map.
  - now rewrite updateFulfillment_unknown_sub.
Qed.

Lemma reachable_NoDup (docs : list QueryDoc) :
  reachable docs -> NoDup (map doc_id docs).
Proof.
  induction 1 as [|docs tz s r l form newId _ IH Hfresh _| |].
  - constructor.
  - rewrite map_app. simpl. apply NoDup_app.
    + exact IH.
    + constructor; [intros []|constructor].
    + intros x Hx [<-|[]]. contradiction.
  - unfold afterUpdateFulfillment. now rewrite commit_ids.
  - unfold afterAddLog. now rewrite commit_ids.
Qed.

Lemma count_is_duration_counts (docs docs' : list QueryDoc) :
  counts docs' = counts docs ->
  Forall count_is_duration (onSnapshot docs) ->
  Forall count_is_duration (onSnapshot docs').
Proof.
  unfold counts. generalize (onSnapshot docs) (onSnapshot docs').
  intros l l'. revert l. induction l' as [|s' l' IH]; intros [|s l] Heq Hall;
    simpl in Heq; try discriminate; constructor.
  - inversion Hall as [|? ? Hs _]; subst. unfold count_is_duration in *.
    injection Heq as _ Hdur Hlen _. congruence.
  - inversion Hall; subst. injection Heq as _ _ _ Heq. now apply (IH l).
Qed.

Lemma count_is_duration_created (LocalTZA : Z -> bool -> Z)
    (startDateNow rxNow logNow : Z) (formData : FormData) (newId : string) :
  0 <= form_duration formData ->
  count_is_duration
    (deriveStatus
       (snapshotDoc
          (mkQueryDoc newId
             (handleSubmit_create LocalTZA startDateNow rxNow logNow formData)))).
Proof.
  intros Hpos. unfold count_is_duration. simpl.
  rewrite pushFulfillments_length. simpl. lia.
Qed.

(** C8: in every collection the handlers can produce, each subscription has
    as many fulfillments as its duration (so it has at creation), and neither
    a fulfillment transition nor a log append changes the number of
    fulfillments, the duration or the id of any subscription. *)
Theorem fulfillment_count_fixed (docs : list QueryDoc) :
  reachable docs ->
  Forall count_is_duration (onSnapshot docs) /\
  (forall toLocaleDateString now subId key newStatus tracking',
     counts (afterUpdateFulfillment toLocaleDateString docs now subId key
                                    newStatus tracking') = counts docs) /\
  (forall now subId message actor,
     counts (afterAddLog docs now subId message actor) = counts docs).
Proof.
  intros Hreach. split; [|split].
  - induction Hreach
      as [|docs tz s r l form newId Hreach IH Hfresh Hpos
          |docs tl now subId key st tr Hreach IH
          |docs now subId msg act Hreach IH].
    + constructor.
    + unfold onSnapshot. rewrite !map_app. apply Forall_app. split.
      * exact IH.
      * constructor; [|constructor].
        apply count_is_duration_created. lia.
    + apply (count_is_duration_counts docs); [|exact IH].
      apply counts_afterUpdateFulfillment. now apply reachable_NoDup.
    + apply (count_is_duration_counts docs); [|exact IH].
      apply counts_afterAddLog.
  - intros. apply counts_afterUpdateFulfillment. now apply reachable_NoDup.
  - intros. apply counts_afterAddLog.
Qed.

Lemma scenario_reachable : reachable [scenario_doc].
Proof.
  apply (reach_create [] JSDate.utc_host 1704067200000 1704067200000
                      1704067200000 scenario_form "sub1").
  - apply reach_empty.
  - simpl. tauto.
  - simpl. lia.
Defined.

Lemma fulfillment_count_fixed_witness :
  Forall count_is_duration (onSnapshot [scenario_doc]) /\
  counts (afterUpdateFulfillment enUS [scenario_doc] 1704153600000 "sub1"
                                 first_key "Shipped" (Some "1Z999"))
  = [ ("sub1", 3, 3%nat) ].
Proof.
  destruct (fulfillment_count_fixed [scenario_doc] scenario_reachable)
    as [Hinv [Hupd _]].
  split; [exact Hinv|].
  rewrite Hupd. reflexivity.
Defined.

(** ** The sort *)

Section SortFacts.

Context {A : Type}.
Variable e : JSArray.engine.
Variable comparefn : A -> A -> Z.

Let movesBefore := JSArray.movesBefore e comparefn.
Let insert := JSArray.insert e comparefn.
Let sort := JSArray.sort e comparefn.

Lemma insert_Permutation (x : A) (prefix : list A) :
  Permutation (x :: prefix) (insert x prefix).
Proof.
  induction prefix as [|y rest IH]; simpl.
  - apply Permutation_refl.
  - destruct (JSArray.movesBefore e comparefn x y).
    + eapply perm_trans; [apply perm_swap|]. now apply perm_skip.
    + apply Permutation_refl.
Qed.

Lemma fold_insert_Permutation (l prefix : list A) :
  Permutation (l ++ prefix)
              (fold_left (fun prefix x => insert x prefix) l prefix).
Proof.
  revert prefix. induction l as [|x l IH]; intros prefix; simpl.
  - apply Permutation_refl.
  - eapply perm_trans; [|apply IH].
    eapply perm_trans; [apply Permutation_middle|].
    apply Permutation_app_head. apply insert_Permutation.
Qed.

Lemma sort_Permutation (l : list A) : Permutation l (sort l).
Proof.
  unfold sort, JSArray.sort.
  eapply perm_trans; [|apply Permutation_rev].
  rewrite <- (app_nil_r l) at 1. apply fold_insert_Permutation.
Qed.

(** *** Order: the output is sorted for every relation the engine's
    decisions respect. *)

Variable R : A -> A -> Prop.
Hypothesis R_trans : forall x y z, R x y -> R y z -> R x z.
Hypothesis moved : forall x y, movesBefore x y = true -> R x y.
Hypothesis kept : forall x y, movesBefore x y = false -> R y x.

Lemma insert_descending (x : A) (prefix : list A) :
  descending R prefix -> descending R (insert x prefix).
Proof.
  induction prefix as [|y rest IH]; simpl; intros Hd.
  - split; [constructor|exact I].
  - destruct Hd as [Hy Hrest].
    destruct (JSArray.movesBefore e comparefn x y) eqn:E; simpl.
    + split; [|now apply IH].
      apply (Permutation_Forall (insert_Permutation x rest)).
      constructor; [now apply moved|exact Hy].
    + split; [|split; assumption].
      assert (Hyx : R y x) by now apply kept.
      constructor; [exact Hyx|].
      eapply Forall_impl; [|exact Hy].
      intros z Hz. now apply (R_trans z y x).
Qed.

Lemma fold_insert_descending (l prefix : list A) :
  descending R prefix ->
  descending R (fold_left (fun prefix x => insert x prefix) l prefix).
Proof.
  revert prefix. induction l as [|x l IH]; intros prefix Hd; simpl.
  - exact Hd.
  - apply IH. now apply insert_descending.
Qed.

Lemma descending_precedes (l : list A) (a b : A) :
  descending R l -> precedes a b (rev l) -> R a b.
Proof.
  intros Hd [l1 [l2 [l3 Heq]]].
  assert (Hl : l = rev l3 ++ b :: rev l2 ++ a :: rev l1).
  { rewrite <- (rev_involutive l), Heq.
    rewrite rev_app_distr. simpl. rewrite rev_app_distr. simpl.
    now rewrite <- !app_assoc. }
  clear Heq. subst l.
  induction (rev l3) as [|c l3' IH]; simpl in Hd.
  - destruct Hd as [Hb _]. rewrite Forall_forall in Hb.
    apply Hb. apply in_or_app. right. now left.
  - apply IH. apply Hd.
Qed.

Lemma sort_ordered (l : list A) (a b : A) :
  precedes a b (sort l) -> R a b.
Proof.
  unfold sort, JSArray.sort. apply descending_precedes.
  apply fold_insert_descending. exact I.
Qed.

End SortFacts.

Section SortStability.

Context {A : Type}.
Variable e : JSArray.engine.
Variable comparefn : A -> A -> Z.

(** A class of elements none of which the engine moves before another. *)
Variable P : A -> bool.
Hypothesis P_kept :
  forall x y, P x = true -> P y = true ->
              JSArray.movesBefore e comparefn x y = false.

Lemma insert_filter (x : A) (prefix : list A) :
  filter P (JSArray.insert e comparefn x prefix) = filter P (x :: prefix).
Proof.
  induction prefix as [|y rest IH]; [reflexivity|].
  cbn [JSArray.insert].
  destruct (JSArray.movesBefore e comparefn x y) eqn:E; [|reflexivity].
  cbn [filter] in *. rewrite IH.
  destruct (P x) eqn:Px, (P y) eqn:Py; try reflexivity.
  rewrite (P_kept x y Px Py) in E. discriminate.
Qed.

Lemma fold_insert_filter (l prefix : list A) :
  filter P (fold_left (fun prefix x => JSArray.insert e comparefn x prefix)
                      l prefix)
  = rev (filter P l) ++ filter P prefix.
Proof.
  revert prefix. induction l as [|x l IH]; intros prefix; [reflexivity|].
  cbn [fold_left]. rewrite IH, insert_filter. cbn [filter].
  destruct (P x); [|reflexivity].
  cbn [rev]. now rewrite <- app_assoc.
Qed.

(** The elements of the class keep their input order. *)
Lemma sort_filter (l : list A) :
  filter P (JSArray.sort e comparefn l) = filter P l.
Proof.
  unfold JSArray.sort.
  assert (Hrev : forall l0 : list A, filter P (rev l0) = rev (filter P l0)).
  { induction l0 as [|a l0 IH0]; [reflexivity|].
    cbn [rev filter]. rewrite filter_app, IH0. cbn [filter].
    destruct (P a); cbn [rev]; [reflexivity|apply app_nil_r]. }
  rewrite Hrev, fold_insert_filter, app_nil_r. apply rev_involutive.
Qed.

End SortStability.

(** ** The comparator of [sortedSubscriptions] *)

Lemma compare_nonpositive (a b : Subscription) :
  compareSubscriptions a b <= 0 -> mayPrecede a b = true.
Proof.
  unfold compareSubscriptions, mayPrecede, isActionRequired.
  destruct (String.eqb (sub_status a) "Action Required"),
           (String.eqb (sub_status b) "Action Required"),
           (getNextActionableDate a), (getNextActionableDate b);
    simpl; intros H; try reflexivity; try lia.
  all: apply Z.leb_le; lia.
Qed.

Lemma compare_nonnegative (a b : Subscription) :
  0 <= compareSubscriptions a b -> mayPrecede b a = true.
Proof.
  unfold compareSubscriptions, mayPrecede, isActionRequired.
  destruct (String.eqb (sub_status a) "Action Required"),
           (String.eqb (sub_status b) "Action Required"),
           (getNextActionableDate a), (getNextActionableDate b);
    simpl; intros H; try reflexivity; try lia.
  all: apply Z.leb_le; lia.
Qed.

Lemma mayPrecede_trans (a b c : Subscription) :
  mayPrecede a b = true -> mayPrecede b c = true -> mayPrecede a c = true.
Proof.
  unfold mayPrecede, isActionRequired.
  destruct (String.eqb (sub_status a) "Action Required"),
           (String.eqb (sub_status b) "Action Required"),
           (String.eqb (sub_status c) "Action Required"),
           (getNextActionableDate a), (getNextActionableDate b),
           (getNextActionableDate c);
    simpl; try reflexivity; try discriminate.
  all: rewrite !Z.leb_le; lia.
Qed.

Lemma movesBefore_mayPrecede (e : JSArray.engine) (x y : Subscription) :
  JSArray.movesBefore e compareSubscriptions x y = true ->
  mayPrecede x y = true.
Proof.
  destruct e; simpl; intros H.
  - apply compare_nonpositive. apply Z.ltb_lt in H. lia.
  - apply compare_nonnegative. apply Z.ltb_lt in H. lia.
Qed.

Lemma kept_mayPrecede (e : JSArray.engine) (x y : Subscription) :
  JSArray.movesBefore e compareSubscriptions x y = false ->
  mayPrecede y x = true.
Proof.
  destruct e; simpl; intros H.
  - apply compare_nonnegative. apply Z.ltb_ge in H. lia.
  - apply compare_nonpositive. apply Z.ltb_ge in H. lia.
Qed.

(** In the state the snapshot handler sets, a subscription whose status is
    'Action Required' has a fulfillment that is not 'Shipped'. *)
Lemma find_not_none_forallb {B : Type} (p : B -> bool) (l : list B) :
  find (fun x => negb (p x)) l = None -> forallb p l = true.
Proof.
  induction l as [|x l IH]; simpl; [reflexivity|].
  destruct (p x); simpl; [exact IH|discriminate].
Qed.

Lemma action_required_has_date (docs : list QueryDoc) (s : Subscription) :
  In s (onSnapshot docs) ->
  sub_status s = "Action Required" ->
  getNextActionableDate s <> None.
Proof.
  unfold onSnapshot. rewrite map_map, in_map_iff.
  intros [d [<- _]] Hst Hnone.
  change (overallStatus (snapshotDoc d) = "Action Required") in Hst.
  unfold getNextActionableDate in Hnone. cbn [deriveStatus set_status fulfillments] in Hnone.
  destruct (find _ (fulfillments (snapshotDoc d))) eqn:Hfind; [discriminate|].
  apply find_not_none_forallb in Hfind.
  assert (Hall : allFulfilled (snapshotDoc d) = true) by exact Hfind.
  unfold overallStatus in Hst. rewrite Hall in Hst.
  destruct (String.eqb (sub_status (snapshotDoc d)) "On Hold") eqn:E;
    cbn [negb] in Hst.
  - apply String.eqb_eq in E. rewrite E in Hst. discriminate.
  - discriminate.
Qed.

(** *** Ties *)

(** Two subscriptions with the same key that both have a next actionable
    date compare as equal, in both directions. *)
Lemma compare_sameKey_dated (a b : Subscription) :
  sameKey a b = true ->
  getNextActionableDate a <> None ->
  compareSubscriptions a b = 0.
Proof.
  unfold sameKey, compareSubscriptions, isActionRequired.
  destruct (String.eqb (sub_status a) "Action Required"),
           (String.eqb (sub_status b) "Action Required"),
           (getNextActionableDate a), (getNextActionableDate b);
    simpl; intros H Hd; try discriminate; try congruence.
  all: apply Z.eqb_eq in H; lia.
Qed.

(** A subscription that is not 'Action Required' and has no next actionable
    date compares as greater than every subscription: two of them compare as
    greater than each other, so the comparator is not antisymmetric. *)
Lemma compare_without_date (a b : Subscription) :
  isActionRequired a = false ->
  getNextActionableDate a = None ->
  compareSubscriptions a b = 1.
Proof.
  unfold compareSubscriptions, isActionRequired. intros -> ->.
  now destruct (String.eqb (sub_status b) "Action Required").
Qed.

Lemma sameKey_sym (a b : Subscription) : sameKey a b = sameKey b a.
Proof.
  unfold sameKey.
  destruct (isActionRequired a), (isActionRequired b),
           (getNextActionableDate a), (getNextActionableDate b);
    simpl; try reflexivity; apply Z.eqb_sym.
Qed.

Lemma sameKey_trans (k a b : Subscription) :
  sameKey k a = true -> sameKey k b = true -> sameKey a b = true.
Proof.
  unfold sameKey.
  destruct (isActionRequired k), (isActionRequired a), (isActionRequired b),
           (getNextActionableDate k), (getNextActionableDate a),
           (getNextActionableDate b);
    simpl; try reflexivity; try discriminate.
  all: rewrite !Z.eqb_eq; lia.
Qed.

Lemma sameKey_date (k a : Subscription) :
  sameKey k a = true ->
  getNextActionableDate k <> None -> getNextActionableDate a <> None.
Proof.
  unfold sameKey.
  destruct (getNextActionableDate k), (getNextActionableDate a);
    try congruence.
  rewrite andb_false_r. discriminate.
Qed.

(** Subscriptions with the same key that have a next actionable date keep
    their input order, whatever the engine. *)
Lemma sortedSubscriptions_stable_dated (e : JSArray.engine)
    (subscriptions : list Subscription) (k : Subscription) :
  getNextActionableDate k <> None ->
  filter (sameKey k) (sortedSubscriptions e subscriptions)
  = filter (sameKey k) subscriptions.
Proof.
  intros Hk. apply sort_filter. intros x y Hx Hy.
  pose proof (sameKey_trans k x y Hx Hy) as Hxy.
  pose proof (sameKey_date k x Hx Hk) as Hdx.
  pose proof (sameKey_date k y Hy Hk) as Hdy.
  destruct e; simpl.
  - now rewrite (compare_sameKey_dated x y Hxy Hdx).
  - rewrite sameKey_sym in Hxy.
    now rewrite (compare_sameKey_dated y x Hxy Hdy).
Qed.

(** X20: under V8's way of consulting the comparator every class of equal keys
    keeps its input order. *)
Lemma sortedSubscriptions_stable_V8 (subscriptions : list Subscription)
    (k : Subscription) :
  filter (sameKey k) (sortedSubscriptions JSArray.V8 subscriptions)
  = filter (sameKey k) subscriptions.
Proof.
  apply sort_filter. intros x y Hx Hy.
  pose proof (sameKey_trans k x y Hx Hy) as Hxy. simpl.
  apply Z.ltb_ge. apply Z.ge_le_iff.
  unfold sameKey in Hxy. unfold compareSubscriptions.
  fold (isActionRequired x) (isActionRequired y).
  destruct (isActionRequired x), (isActionRequired y),
           (getNextActionableDate x), (getNextActionableDate y);
    simpl in *; try discriminate; try lia.
  all: apply Z.eqb_eq in Hxy; lia.
Qed.

(** C6 at two fully shipped subscriptions: they have the same key and the
    comparator returns 1 for them in both directions; an engine that asks
    [comparefn(earlier, later)] puts the later one first, an engine that asks
    [comparefn(later, earlier)] keeps them. *)
Theorem fulfilled_pair_order :
  let a := deriveStatus (snapshotDoc (fulfilled_doc "a")) in
  let b := deriveStatus (snapshotDoc (fulfilled_doc "b")) in
  onSnapshot [fulfilled_doc "a"; fulfilled_doc "b"] = [a; b] /\
  sameKey a b = true /\
  compareSubscriptions a b = 1 /\
  compareSubscriptions b a = 1 /\
  sortedSubscriptions JSArray.SpiderMonkey [a; b] = [b; a] /\
  sortedSubscriptions JSArray.V8 [a; b] = [a; b].
Proof. vm_compute. repeat split. Qed.

(** * Further properties of the code *)

(** ** [addMonths] on a host with a constant offset from UTC *)

Section AddMonthsFacts.

Import JSDate.

Lemma DaysInMonth_positive (y m : Z) : 28 <= DaysInMonth y m.
Proof.
  unfold DaysInMonth. pose proof (leapOf_range y).
  destruct m as [|p|p]; try lia.
  do 4 (destruct p as [p|p|]; try lia).
Qed.

(** One month more is the number of days of the month passed over. *)
Lemma MakeDay_next_month (y month dt : Z) :
  MakeDay y (month + 1) dt
  = MakeDay y month dt + DaysInMonth (y + month / 12) (month mod 12).
Proof.
  pose proof (Z.mod_pos_bound month 12 ltac:(lia)) as Hr.
  pose proof (Z.div_mod month 12 ltac:(lia)) as Hqr.
  unfold MakeDay. fold (leapOf (y + month / 12)).
  fold (leapOf (y + (month + 1) / 12)).
  destruct (Z.eq_dec (month mod 12) 11) as [E|E].
  - assert (Hq : (month + 1) / 12 = month / 12 + 1)
      by (Z.div_mod_to_equations; lia).
    assert (Hm : (month + 1) mod 12 = 0) by (Z.div_mod_to_equations; lia).
    rewrite Hq, Hm, E, Z.add_assoc, DayFromYear_succ, DaysInYear_leapOf.
    cbv beta iota delta [monthStart DaysInMonth]. lia.
  - assert (Hq : (month + 1) / 12 = month / 12)
      by (Z.div_mod_to_equations; lia).
    assert (Hm : (month + 1) mod 12 = month mod 12 + 1)
      by (Z.div_mod_to_equations; lia).
    rewrite Hq, Hm.
    assert (Hc : 0 <= month mod 12 <= 10) by lia.
    generalize dependent (month mod 12). intros r _ _ _ _ Hc.
    assert (Hcases : r = 0 \/ r = 1 \/ r = 2 \/ r = 3 \/ r = 4 \/ r = 5 \/
                     r = 6 \/ r = 7 \/ r = 8 \/ r = 9 \/ r = 10) by lia.
    destruct Hcases as [->|[->|[->|[->|[->|[->|[->|[->|[->|[->| ->]]]]]]]]]];
      cbn [Z.add Pos.add Pos.succ Pos.add_carry];
      cbv beta iota delta [monthStart DaysInMonth]; lia.
Qed.

Variable LocalTZA : Z -> bool -> Z.
Variable c : Z.
Hypothesis constant_offset : forall t b, LocalTZA t b = c.

Lemma addMonths_MakeDay (t i : Z) :
  addMonths LocalTZA t i
  = MakeDate (MakeDay (YearFromTime (t + c))
                      (MonthFromTime (t + c) + i)
                      (DateFromTime (t + c)))
             (TimeWithinDay (t + c)) - c.
Proof.
  unfold addMonths, setMonth, getMonth, UTC, LocalTime.
  now rewrite !constant_offset.
Qed.

Lemma addMonths_next (t i : Z) :
  addMonths LocalTZA t i < addMonths LocalTZA t (i + 1).
Proof.
  rewrite !addMonths_MakeDay, Z.add_assoc, MakeDay_next_month.
  unfold MakeDate, msPerDay.
  match goal with
  | |- context [DaysInMonth ?y ?m] => pose proof (DaysInMonth_positive y m)
  end.
  lia.
Qed.

Lemma addMonths_lt (t i j : Z) :
  i < j -> addMonths LocalTZA t i < addMonths LocalTZA t j.
Proof.
  intros Hij.
  replace j with (i + 1 + Z.of_nat (Z.to_nat (j - i - 1))) by lia.
  induction (Z.to_nat (j - i - 1)) as [|n IH].
  - rewrite Z.add_0_r. apply addMonths_next.
  - eapply Z.lt_trans; [exact IH|].
    replace (i + 1 + Z.of_nat (S n)) with (i + 1 + Z.of_nat n + 1) by lia.
    apply addMonths_next.
Qed.

Lemma addMonths_zero (t : Z) : addMonths LocalTZA t 0 = t.
Proof.
  rewrite addMonths_MakeDay, Z.add_0_r.
  destruct (calendar_valid (t + c)) as [Hm _].
  assert (Hday : MakeDay (YearFromTime (t + c)) (MonthFromTime (t + c))
                         (DateFromTime (t + c)) = Day (t + c)).
  { unfold MakeDay. rewrite Z.div_small, Z.mod_small, Z.add_0_r by lia.
    unfold DateFromTime, DayWithinYear, InLeapYear. lia. }
  rewrite Hday. unfold MakeDate, Day, TimeWithinDay, msPerDay.
  pose proof (Z.div_mod (t + c) 86400000 ltac:(lia)). lia.
Qed.

End AddMonthsFacts.

(** ** Documents under the handlers' writes *)

Lemma in_onSnapshot (docs : list QueryDoc) (sub : Subscription) :
  In sub (onSnapshot docs) <->
  exists d, In d docs /\ sub = deriveStatus (snapshotDoc d).
Proof.
  unfold onSnapshot. rewrite map_map, in_map_iff.
  split; intros [d [H1 H2]]; exists d; auto.
Qed.

Lemma commit_as_map (docs : list QueryDoc) (subId : string) (p1 p2 : fieldPatch) :
  commit docs [ (subId, p1); (subId, p2) ]
  = map (fun d => if String.eqb (doc_id d) subId
                  then patched p2 (patched p1 d) else d) docs.
Proof.
  unfold commit, updateDoc. simpl. rewrite map_map. apply map_ext.
  intros d. destruct (String.eqb (doc_id d) subId) eqn:E; simpl.
  - now rewrite E.
  - now rewrite E.
Qed.

Lemma same_id_same_doc (docs : list QueryDoc) (d d0 : QueryDoc) :
  NoDup (map doc_id docs) -> In d docs -> In d0 docs ->
  doc_id d = doc_id d0 -> d = d0.
Proof.
  intros Hnd Hd Hd0 Hid.
  pose proof (getDoc_In_NoDup docs d Hnd Hd) as H1.
  pose proof (getDoc_In_NoDup docs d0 Hnd Hd0) as H2.
  rewrite Hid, H2 in H1. now injection H1.
Qed.

(** Replacing the one document with the id of [d0] keeps a property of all
    documents when the replacement has it. *)
Lemma Forall_replace_doc (P : QueryDoc -> Prop) (docs : list QueryDoc)
    (d0 : QueryDoc) (g : QueryDoc -> QueryDoc) :
  NoDup (map doc_id docs) -> In d0 docs ->
  Forall P docs -> P (g d0) ->
  Forall P (map (fun d => if String.eqb (doc_id d) (doc_id d0)
                          then g d else d) docs).
Proof.
  intros Hnd Hd0 Hall Hg. rewrite Forall_forall in *.
  intros x Hx. apply in_map_iff in Hx. destruct Hx as [d [<- Hd]].
  destruct (String.eqb (doc_id d) (doc_id d0)) eqn:E.
  - apply String.eqb_eq in E.
    now rewrite (same_id_same_doc docs d d0 Hnd Hd Hd0 E).
  - now apply Hall.
Qed.

Lemma ids_replace_doc (docs : list QueryDoc) (subId : string)
    (g : QueryDoc -> QueryDoc) :
  (forall d, doc_id (g d) = doc_id d) ->
  map doc_id (map (fun d => if String.eqb (doc_id d) subId then g d else d) docs)
  = map doc_id docs.
Proof.
  intros Hg. rewrite map_map. apply map_ext. intros d.
  destruct (String.eqb (doc_id d) subId); [apply Hg|reflexivity].
Qed.

Lemma addLog_writes (docs : list QueryDoc) (now : Z)
    (subId message actor : string) (d : QueryDoc) :
  getDoc subId docs = Some d ->
  addLog (onSnapshot docs) now subId message actor
  = [ (subId,
       SetCommunicationLog
         (communicationLog (snapshotDoc d)
            ++ [ {| date := now; message := message; actor := actor |} ])) ].
Proof.
  intros Hd. unfold addLog. rewrite find_onSnapshot, Hd. reflexivity.
Qed.

Lemma commit_one_as_map (docs : list QueryDoc) (subId : string) (p : fieldPatch) :
  commit docs [ (subId, p) ]
  = map (fun d => if String.eqb (doc_id d) subId then patched p d else d) docs.
Proof. reflexivity. Qed.

(** ** Invariants of the collections the interface can produce *)

Section InterfaceFacts.

Variable LocalTZA : Z -> bool -> Z.
Variable toLocaleDateString : Z -> string.
Variable trim : string -> string.

Let ok := doc_ok LocalTZA.
Let reach := ui_reachable LocalTZA toLocaleDateString trim.

Lemma doc_ok_created (formData : FormData) (startDateNow rxNow logNow : Z)
    (newId : string) :
  newId <> "" ->
  In (form_duration formData) [1; 3; 6] ->
  ok (mkQueryDoc newId
        (handleSubmit_create LocalTZA startDateNow rxNow logNow formData)).
Proof.
  intros Hid Hdur. split; [exact Hid|]. split; [exact Hdur|].
  assert (Hpos : 0 < form_duration formData) by (simpl in Hdur; lia).
  exists startDateNow,
    (pushFulfillments LocalTZA startDateNow rxNow
       (Z.to_nat (form_duration formData)) 0 []),
    logNow, [].
  split; [reflexivity|]. split; [reflexivity|]. split; [|split].
  - rewrite pushFulfillments_length. simpl. lia.
  - intros i f Hnth.
    assert (Hi : (i < Z.to_nat (form_duration formData))%nat).
    { assert (Hn : nth_error
                     (pushFulfillments LocalTZA startDateNow rxNow
                        (Z.to_nat (form_duration formData)) 0 []) i <> None)
        by (rewrite Hnth; discriminate).
      apply nth_error_Some in Hn.
      now rewrite pushFulfillments_length in Hn. }
    pose proof (pushFulfillments_new LocalTZA startDateNow rxNow _ 0 [] i Hi)
      as Hnew.
    simpl in Hnew. rewrite Hnew in Hnth. injection Hnth as <-.
    unfold fulfillment_ok, newFulfillment. cbn [fulfillmentDate status tracking rxId].
    destruct (Z.eqb_spec (Z.of_nat i) 0) as [E|E].
    + repeat split; try discriminate. intros Hi0. lia.
    + repeat split; try discriminate. intros Hi0. lia.
  - reflexivity.
Qed.

Lemma doc_ok_log (d : QueryDoc) (entry : LogEntry) :
  ok d ->
  ok (patched (SetCommunicationLog (communicationLog (snapshotDoc d) ++ [entry]))
              d).
Proof.
  intros [Hid [Hdur [start [fs [created [rest [Hs [Hfs [Hlen [Hall Hlog]]]]]]]]]].
  assert (Hsnap : communicationLog (snapshotDoc d)
                  = {| date := created; message := "Subscription created.";
                       actor := "System" |} :: rest)
    by (unfold snapshotDoc; cbn [communicationLog]; now rewrite Hlog).
  rewrite Hsnap.
  split; [exact Hid|]. split; [exact Hdur|].
  exists start, fs, created, (rest ++ [entry]).
  split; [exact Hs|]. split; [exact Hfs|]. split; [exact Hlen|].
  split; [exact Hall|reflexivity].
Qed.

Lemma doc_ok_fulfillments (d : QueryDoc) (key : Fulfillment)
    (newStatus : string) (tracking' : option string) :
  modal_transition newStatus tracking' ->
  ok d ->
  ok (patched
        (SetFulfillments
           (map (updateOne key newStatus tracking')
                (fulfillments (snapshotDoc d)))) d).
Proof.
  intros Hmodal
    [Hid [Hdur [start [fs [created [rest [Hs [Hfs [Hlen [Hall Hlog]]]]]]]]]].
  assert (Hsnap : fulfillments (snapshotDoc d) = fs)
    by (unfold snapshotDoc; cbn [fulfillments]; now rewrite Hfs).
  rewrite Hsnap.
  split; [exact Hid|]. split; [exact Hdur|].
  exists start, (map (updateOne key newStatus tracking') fs), created, rest.
  split; [exact Hs|]. split; [reflexivity|]. split; [|split].
  - now rewrite length_map.
  - intros i f' Hnth. rewrite nth_error_map in Hnth.
    destruct (nth_error fs i) as [f|] eqn:Hf; [|discriminate].
    injection Hnth as <-.
    destruct (Hall i f Hf) as [Hdate [Hst [Hship [Hrx0 Hrx]]]].
    unfold updateOne.
    destruct (fulfillmentDate f =? fulfillmentDate key);
      [|repeat split; assumption].
    unfold fulfillment_ok. simpl. split; [exact Hdate|].
    split; [|split; [|split; assumption]].
    + destruct Hmodal as [[Hin _]|[-> _]]; [|discriminate].
      simpl in Hin. destruct Hin as [<-|[<-|[<-|[]]]]; discriminate.
    + intros ->. destruct Hmodal as [[Hin _]|[_ Htr]].
      * simpl in Hin. destruct Hin as [H|[H|[H|[]]]]; discriminate.
      * destruct tracking'; [discriminate|contradiction].
  - exact Hlog.
Qed.

Lemma NoDup_ids_filter (p : QueryDoc -> bool) (docs : list QueryDoc) :
  NoDup (map doc_id docs) -> NoDup (map doc_id (filter p docs)).
Proof.
  induction docs as [|d docs IH]; simpl; intros Hnd; [constructor|].
  inversion Hnd as [|? ? Hnotin Hnd']; subst.
  destruct (p d); simpl; [constructor|]; auto.
  intros Hin. apply Hnotin. apply in_map_iff in Hin.
  destruct Hin as [x [Hx Hin]]. apply filter_In in Hin.
  apply in_map_iff. exists x. tauto.
Qed.

Lemma ok_transition (docs : list QueryDoc) (d0 : QueryDoc) (now : Z)
    (key : Fulfillment) (newStatus : string) (tracking' : option string) :
  NoDup (map doc_id docs) -> Forall ok docs -> In d0 docs ->
  modal_transition newStatus tracking' ->
  let docs' := commit docs
                 (updateFulfillment toLocaleDateString (onSnapshot docs) now
                    (doc_id d0) key newStatus tracking') in
  NoDup (map doc_id docs') /\ Forall ok docs'.
Proof.
  intros Hnd Hall Hd0 Hmodal docs'. subst docs'.
  rewrite (updateFulfillment_writes _ _ _ _ d0)
    by now apply getDoc_In_NoDup.
  rewrite commit_as_map. split.
  - rewrite ids_replace_doc; [exact Hnd|reflexivity].
  - apply Forall_replace_doc; try assumption.
    rewrite Forall_forall in Hall. cbv beta.
    match goal with
    | |- ok (patched _ (patched (SetCommunicationLog ?l) d0)) =>
        change (ok (patched
                      (SetFulfillments
                         (map (updateOne key newStatus tracking')
                              (fulfillments
                                 (snapshotDoc
                                    (patched (SetCommunicationLog l) d0)))))
                      (patched (SetCommunicationLog l) d0)))
    end.
    apply doc_ok_fulfillments; [exact Hmodal|].
    apply doc_ok_log. now apply Hall.
Qed.

Lemma ui_step_ok (docs docs' : list QueryDoc) :
  NoDup (map doc_id docs) -> Forall ok docs ->
  ui_step LocalTZA toLocaleDateString trim docs docs' ->
  NoDup (map doc_id docs') /\ Forall ok docs'.
Proof.
  intros Hnd Hall Hstep.
  destruct Hstep
    as [form s r l newId Hfresh Hne Hdur
       |sub form rn s r l newId Hsub Hdur
       |sub confirmed Hsub
       |sub now msg Hsub
       |sub f now st Hsub Hf Hst
       |sub f now tn Hsub Hf Hshown].
  - cbn [handleSaveSubscription handleSubmit submission_id submission_data].
    split.
    + rewrite map_app. simpl. apply NoDup_app; [exact Hnd| |].
      * constructor; [intros []|constructor].
      * intros x Hx [<-|[]]. contradiction.
    + apply Forall_app. split; [exact Hall|].
      constructor; [|constructor]. now apply doc_ok_created.
  - apply in_onSnapshot in Hsub. destruct Hsub as [d0 [Hd0 ->]].
    pose proof Hall as Hall'. rewrite Forall_forall in Hall'.
    destruct (Hall' d0 Hd0)
      as [Hid [Hd [start [fs [created [rest [Hs [Hfs [Hlen [Hfok Hlog]]]]]]]]]].
    unfold handleSaveSubscription, handleSubmit, handleSubmit_edit.
    cbn [submission_id submission_data data_startDate].
    change (id (deriveStatus (snapshotDoc d0))) with (doc_id d0).
    change (startDate (deriveStatus (snapshotDoc d0)))
      with (data_startDate (doc_data d0)).
    apply String.eqb_neq in Hid. rewrite Hid, Hs. apply String.eqb_neq in Hid.
    split.
    + rewrite ids_replace_doc; [exact Hnd|reflexivity].
    + apply (Forall_replace_doc ok docs d0
               (fun d => mkQueryDoc (doc_id d) _)); try assumption.
      assert (Hdur' : form_duration form = data_duration (doc_data d0)).
      { rewrite Hdur. cbn [initialFormData form_duration].
        change (duration (deriveStatus (snapshotDoc d0)))
          with (data_duration (doc_data d0)).
        destruct (Z.eqb_spec (data_duration (doc_data d0)) 0) as [E|E];
          [|reflexivity].
        rewrite E in Hd. simpl in Hd. lia. }
      split; [exact Hid|]. cbn [doc_data data_duration].
      split; [now rewrite Hdur'|].
      exists start, fs, created, rest.
      cbn [data_startDate data_fulfillments data_communicationLog].
      change (fulfillments (deriveStatus (snapshotDoc d0)))
        with (match data_fulfillments (doc_data d0) with
              | Some fs0 => fs0 | None => [] end).
      change (communicationLog (deriveStatus (snapshotDoc d0)))
        with (match data_communicationLog (doc_data d0) with
              | Some l0 => l0 | None => [] end).
      rewrite Hfs, Hlog, Hdur'.
      split; [reflexivity|]. split; [reflexivity|]. split; [exact Hlen|].
      split; [exact Hfok|reflexivity].
  - unfold handleDelete. destruct confirmed; [|split; assumption]. split.
    + now apply NoDup_ids_filter.
    + rewrite Forall_forall in *. intros d Hd. apply filter_In in Hd.
      now apply Hall.
  - apply in_onSnapshot in Hsub. destruct Hsub as [d0 [Hd0 ->]].
    unfold handleAddLog.
    destruct (String.eqb (trim msg) ""); [split; assumption|].
    change (id (deriveStatus (snapshotDoc d0))) with (doc_id d0).
    rewrite (addLog_writes _ _ _ _ _ d0) by now apply getDoc_In_NoDup.
    rewrite commit_one_as_map. split.
    + rewrite ids_replace_doc; [exact Hnd|reflexivity].
    + apply Forall_replace_doc; try assumption.
      apply doc_ok_log. rewrite Forall_forall in Hall. now apply Hall.
  - apply in_onSnapshot in Hsub. destruct Hsub as [d0 [Hd0 ->]].
    unfold simulateEvent.
    change (id (deriveStatus (snapshotDoc d0))) with (doc_id d0).
    apply ok_transition; try assumption. left. now split.
  - apply in_onSnapshot in Hsub. destruct Hsub as [d0 [Hd0 ->]].
    unfold handleShip.
    change (id (deriveStatus (snapshotDoc d0))) with (doc_id d0).
    apply ok_transition; try assumption. right. split; [reflexivity|discriminate].
Qed.

(** Every collection the interface can produce has distinct ids and
    documents that satisfy [doc_ok]. *)
Lemma ui_reachable_ok (docs : list QueryDoc) :
  reach docs -> NoDup (map doc_id docs) /\ Forall ok docs.
Proof.
  induction 1 as [|docs docs' _ [IHnd IHok] Hstep].
  - split; constructor.
  - now apply (ui_step_ok docs docs').
Qed.

End InterfaceFacts.

(** Two collections the interface can produce. *)
Lemma scenario_ui_reachable :
  ui_reachable JSDate.utc_host enUS latin1_trim [scenario_doc].
Proof.
  apply (ui_next _ _ _ [] [scenario_doc] (ui_start _ _ _)).
  apply (ui_create JSDate.utc_host enUS latin1_trim [] scenario_form
                   1704067200000 1704067200000 1704067200000 "sub1").
  - simpl. tauto.
  - discriminate.
  - simpl. tauto.
Defined.

Lemma scenario_shipped_ui_reachable :
  ui_reachable JSDate.utc_host enUS latin1_trim scenario_shipped.
Proof.
  apply (ui_next _ _ _ [scenario_doc] scenario_shipped scenario_ui_reachable).
  apply (ui_ship JSDate.utc_host enUS latin1_trim [scenario_doc]).
  - simpl. left. reflexivity.
  - simpl. left. reflexivity.
  - reflexivity.
Defined.

Section InterfaceInvariants.

Variable LocalTZA : Z -> bool -> Z.
Variable toLocaleDateString : Z -> string.
Variable trim : string -> string.

Let reach := ui_reachable LocalTZA toLocaleDateString trim.

(** The invariant read through the snapshot. *)
Lemma ui_reachable_sub (docs : list QueryDoc) (sub : Subscription) :
  reach docs -> In sub (onSnapshot docs) ->
  id sub <> "" /\
  In (duration sub) [1; 3; 6] /\
  Z.of_nat (length (fulfillments sub)) = duration sub /\
  exists start created rest,
    startDate sub = Some start /\
    (forall i f, nth_error (fulfillments sub) i = Some f ->
                 fulfillment_ok LocalTZA start i f) /\
    communicationLog sub
    = {| date := created; message := "Subscription created.";
         actor := "System" |} :: rest.
Proof.
  intros Hreach Hsub.
  apply in_onSnapshot in Hsub. destruct Hsub as [d [Hd ->]].
  destruct (ui_reachable_ok LocalTZA toLocaleDateString trim docs Hreach)
    as [_ Hall].
  rewrite Forall_forall in Hall.
  destruct (Hall d Hd)
    as [Hid [Hdur [start [fs [created [rest [Hs [Hfs [Hlen [Hfok Hlog]]]]]]]]]].
  assert (Hsfs : fulfillments (deriveStatus (snapshotDoc d)) = fs)
    by (unfold snapshotDoc; cbn [deriveStatus set_status fulfillments];
        now rewrite Hfs).
  assert (Hslog : communicationLog (deriveStatus (snapshotDoc d))
                  = {| date := created; message := "Subscription created.";
                       actor := "System" |} :: rest)
    by (unfold snapshotDoc; cbn [deriveStatus set_status communicationLog];
        now rewrite Hlog).
  rewrite Hsfs, Hslog.
  split; [exact Hid|]. split; [exact Hdur|]. split; [exact Hlen|].
  exists start, created, rest. split; [exact Hs|]. split; [exact Hfok|reflexivity].
Qed.

(** X2: no handler moves a fulfillment: in every collection the interface can
    produce, the fulfillment at index [i] of a subscription is dated
    [addMonths(startDate, i)]. *)
Theorem ui_schedule_fixed (docs : list QueryDoc) (sub : Subscription) :
  reach docs -> In sub (onSnapshot docs) ->
  exists start,
    startDate sub = Some start /\
    forall i f, nth_error (fulfillments sub) i = Some f ->
                fulfillmentDate f = addMonths LocalTZA start (Z.of_nat i).
Proof.
  intros Hreach Hsub.
  destruct (ui_reachable_sub docs sub Hreach Hsub)
    as [_ [_ [_ [start [created [rest [Hs [Hfok _]]]]]]]].
  exists start. split; [exact Hs|].
  intros i f Hf. now destruct (Hfok i f Hf).
Qed.

(** X3: every fulfillment status the interface can produce is a key of
    [FULFILLMENT_STATUSES], so the icon lookups of the table and of the
    action modal find an entry. *)
Theorem ui_fulfillment_status_known (docs : list QueryDoc) (sub : Subscription)
    (f : Fulfillment) :
  reach docs -> In sub (onSnapshot docs) -> In f (fulfillments sub) ->
  exists info, FULFILLMENT_STATUSES (status f) = Some info.
Proof.
  intros Hreach Hsub Hf.
  destruct (ui_reachable_sub docs sub Hreach Hsub)
    as [_ [_ [_ [start [created [rest [_ [Hfok _]]]]]]]].
  apply In_nth_error in Hf. destruct Hf as [i Hi].
  destruct (Hfok i f Hi) as [_ [Hst _]].
  destruct (FULFILLMENT_STATUSES (status f)) as [info|]; [|contradiction].
  now exists info.
Qed.

(** X4: a fulfillment with status 'Shipped' carries a tracking value: the only
    way to 'Shipped' is [handleShip], which passes the text of the tracking
    field (possibly empty, never [null]). *)
Theorem ui_shipped_has_tracking (docs : list QueryDoc) (sub : Subscription)
    (f : Fulfillment) :
  reach docs -> In sub (onSnapshot docs) -> In f (fulfillments sub) ->
  status f = "Shipped" ->
  exists trackingNumber, tracking f = Some trackingNumber.
Proof.
  intros Hreach Hsub Hf Hshipped.
  destruct (ui_reachable_sub docs sub Hreach Hsub)
    as [_ [_ [_ [start [created [rest [_ [Hfok _]]]]]]]].
  apply In_nth_error in Hf. destruct Hf as [i Hi].
  destruct (Hfok i f Hi) as [_ [_ [Hship _]]].
  destruct (tracking f) as [t|]; [now exists t|].
  now destruct (Hship Hshipped).
Qed.

(** X5: the prescription id is set on the first fulfillment at creation and on
    no other, and no handler changes it. *)
Theorem ui_rxId_only_first (docs : list QueryDoc) (sub : Subscription)
    (i : nat) (f : Fulfillment) :
  reach docs -> In sub (onSnapshot docs) ->
  nth_error (fulfillments sub) i = Some f ->
  (rxId f <> None <-> i = 0%nat).
Proof.
  intros Hreach Hsub Hf.
  destruct (ui_reachable_sub docs sub Hreach Hsub)
    as [_ [_ [_ [start [created [rest [_ [Hfok _]]]]]]]].
  destruct (Hfok i f Hf) as [_ [_ [_ [H0 Hn]]]].
  split.
  - intros Hrx. destruct (Nat.eq_dec i 0) as [E|E]; [exact E|].
    now rewrite (Hn E) in Hrx.
  - exact H0.
Qed.

(** X6: the communication log of every subscription begins with the entry
    'Subscription created.' by 'System': later entries are put behind it and
    nothing removes it. *)
Theorem ui_log_begins_with_creation (docs : list QueryDoc) (sub : Subscription) :
  reach docs -> In sub (onSnapshot docs) ->
  exists created rest,
    communicationLog sub
    = {| date := created; message := "Subscription created.";
         actor := "System" |} :: rest.
Proof.
  intros Hreach Hsub.
  destruct (ui_reachable_sub docs sub Hreach Hsub)
    as [_ [_ [_ [start [created [rest [_ [_ Hlog]]]]]]]].
  now exists created, rest.
Qed.

(** X7: also with edits and deletions, every subscription has as many
    fulfillments as its duration, which is 1, 3 or 6. *)
Theorem ui_count_is_duration (docs : list QueryDoc) (sub : Subscription) :
  reach docs -> In sub (onSnapshot docs) ->
  count_is_duration sub /\ In (duration sub) [1; 3; 6].
Proof.
  intros Hreach Hsub.
  destruct (ui_reachable_sub docs sub Hreach Hsub) as [_ [Hdur [Hlen _]]].
  split; assumption.
Qed.

End InterfaceInvariants.

(** ** Fulfillment dates as keys *)

Lemma find_first {B : Type} (p : B -> bool) (l : list B) (x : B) :
  find p l = Some x ->
  exists i, nth_error l i = Some x /\ p x = true /\
            forall j y, (j < i)%nat -> nth_error l j = Some y -> p y = false.
Proof.
  induction l as [|a l IH]; simpl; [discriminate|].
  destruct (p a) eqn:Pa.
  - intros [= <-]. exists 0%nat. split; [reflexivity|]. split; [exact Pa|].
    intros j y Hj. lia.
  - intros Hfind. destruct (IH Hfind) as [i [Hi [Px Hbefore]]].
    exists (S i). split; [exact Hi|]. split; [exact Px|].
    intros [|j] y Hj Hy.
    + now injection Hy as <-.
    + apply (Hbefore j y); [lia|exact Hy].
Qed.

Section DateKeys.

Variable LocalTZA : Z -> bool -> Z.
Variable toLocaleDateString : Z -> string.
Variable trim : string -> string.
Variable c : Z.
Hypothesis constant_offset : forall t b, LocalTZA t b = c.

Let reach := ui_reachable LocalTZA toLocaleDateString trim.

Lemma ui_dates_increasing (docs : list QueryDoc) (sub : Subscription)
    (i j : nat) (fi fj : Fulfillment) :
  reach docs -> In sub (onSnapshot docs) ->
  nth_error (fulfillments sub) i = Some fi ->
  nth_error (fulfillments sub) j = Some fj ->
  (i < j)%nat -> fulfillmentDate fi < fulfillmentDate fj.
Proof.
  intros Hreach Hsub Hi Hj Hij.
  destruct (ui_reachable_sub LocalTZA toLocaleDateString trim docs sub
              Hreach Hsub)
    as [_ [_ [_ [start [created [rest [_ [Hfok _]]]]]]]].
  destruct (Hfok i fi Hi) as [-> _]. destruct (Hfok j fj Hj) as [-> _].
  apply (addMonths_lt LocalTZA c constant_offset). lia.
Qed.

(** X8: on a host with a constant offset from UTC the date of a fulfillment
    addresses that fulfillment alone: a transition requested for the
    fulfillment at index [i] leaves the fulfillments at the other indices as
    they are. *)
Theorem ui_transition_updates_one (docs : list QueryDoc) (sub : Subscription)
    (i : nat) (key : Fulfillment) (now : Z) (newStatus : string)
    (tracking' : option string) :
  reach docs -> In sub (onSnapshot docs) ->
  nth_error (fulfillments sub) i = Some key ->
  exists d',
    getDoc (id sub)
      (afterUpdateFulfillment toLocaleDateString docs now (id sub) key
                              newStatus tracking') = Some d' /\
    forall j, j <> i ->
      nth_error (fulfillments (snapshotDoc d')) j
      = nth_error (fulfillments sub) j.
Proof.
  intros Hreach Hsub Hkey.
  pose proof Hsub as Hsub'.
  apply in_onSnapshot in Hsub'. destruct Hsub' as [d0 [Hd0 Heq]].
  destruct (ui_reachable_ok LocalTZA toLocaleDateString trim docs Hreach)
    as [Hnd _].
  assert (Hget : getDoc (id sub) docs = Some d0)
    by (rewrite Heq; now apply getDoc_In_NoDup).
  eexists. split.
  - unfold afterUpdateFulfillment.
    apply (getDoc_after_updateFulfillment _ _ _ _ d0). exact Hget.
  - intros j Hj. rewrite fulfillments_patched_fs, nth_error_map.
    assert (Hfs : fulfillments (snapshotDoc d0) = fulfillments sub)
      by now rewrite Heq.
    rewrite Hfs.
    destruct (nth_error (fulfillments sub) j) as [f|] eqn:Hf; [|reflexivity].
    cbn [option_map]. f_equal. apply updateOne_no_match.
    destruct (Nat.lt_trichotomy j i) as [Hlt|[E|Hgt]]; [|contradiction|].
    + pose proof (ui_dates_increasing docs sub j i f key Hreach Hsub Hf Hkey Hlt).
      lia.
    + pose proof (ui_dates_increasing docs sub i j key f Hreach Hsub Hkey Hf Hgt).
      lia.
Qed.

End DateKeys.

(** ** What the snapshot handler shows *)

Lemma overallStatus_cases (sub : Subscription) :
  (sub_status sub = "On Hold" /\ overallStatus sub = "On Hold") \/
  (sub_status sub <> "On Hold" /\ allFulfilled sub = true /\
   overallStatus sub = "Fulfilled") \/
  (sub_status sub <> "On Hold" /\ allFulfilled sub = false /\
   requiresAction sub = true /\ overallStatus sub = "Action Required") \/
  (sub_status sub <> "On Hold" /\ allFulfilled sub = false /\
   requiresAction sub = false /\ overallStatus sub = "Active").
Proof.
  destruct (String.eqb_spec (sub_status sub) "On Hold") as [E|E].
  - left. split; [exact E|now apply overallStatus_on_hold].
  - right. rewrite (overallStatus_derived sub E).
    destruct (allFulfilled sub); [left; auto|right].
    destruct (requiresAction sub); [left; auto|right; auto].
Qed.

(** X10: the status the table shows is 'On Hold', 'Fulfilled', 'Action Required'
    or 'Active', each with a colour in [STATUS_COLORS]: a stored 'Pending' or
    'Approved' (the defaults of the form) is never shown. *)
Theorem snapshot_status_displayable (docs : list QueryDoc) (sub : Subscription) :
  In sub (onSnapshot docs) ->
  In (sub_status sub) displayedStatuses /\
  exists colors, STATUS_COLORS (sub_status sub) = Some colors.
Proof.
  intros Hsub. apply in_onSnapshot in Hsub. destruct Hsub as [d [_ ->]].
  change (sub_status (deriveStatus (snapshotDoc d)))
    with (overallStatus (snapshotDoc d)).
  destruct (overallStatus_cases (snapshotDoc d))
    as [[_ ->]|[[_ [_ ->]]|[[_ [_ [_ ->]]]|[_ [_ [_ ->]]]]]];
    (split; [simpl; tauto|eexists; reflexivity]).
Qed.

Lemma allFulfilled_no_next_date (sub : Subscription) :
  allFulfilled sub = true <-> getNextActionableDate sub = None.
Proof.
  unfold allFulfilled, getNextActionableDate.
  induction (fulfillments sub) as [|f fs IH]; simpl; [tauto|].
  destruct (String.eqb (status f) "Shipped"); simpl.
  - exact IH.
  - split; discriminate.
Qed.

(** ** What the transitions leave alone *)






(** ** Creation through [handleSaveSubscription] *)

Lemma forallb_false_at {B : Type} (p : B -> bool) (l : list B) (i : nat) (x : B) :
  nth_error l i = Some x -> p x = false -> forallb p l = false.
Proof.
  revert i. induction l as [|a l IH]; intros [|i] Hn Hp; simpl in *;
    try discriminate.
  - injection Hn as ->. now rewrite Hp.
  - rewrite (IH i Hn Hp). apply andb_false_r.
Qed.

Lemma existsb_true_at {B : Type} (p : B -> bool) (l : list B) (i : nat) (x : B) :
  nth_error l i = Some x -> p x = true -> existsb p l = true.
Proof.
  intros Hn Hp. apply existsb_exists. exists x. split; [|exact Hp].
  now apply nth_error_In in Hn.
Qed.

(** X13: a subscription created with a positive duration is added under the new
    id and shows 'Action Required' at once (its first fulfillment is 'RX
    Received'), or 'On Hold' when the form said so; the other subscriptions
    are shown as before. *)
Theorem created_subscription_status (LocalTZA : Z -> bool -> Z)
    (startDateNow rxNow logNow : Z) (formData : FormData) (newId : string)
    (docs : list QueryDoc) :
  0 < form_duration formData ->
  let docs' :=
    handleSaveSubscription newId
      (handleSubmit LocalTZA startDateNow rxNow logNow formData None) docs in
  exists sub,
    onSnapshot docs' = onSnapshot docs ++ [sub] /\
    id sub = newId /\
    sub_status sub = (if String.eqb (form_status formData) "On Hold"
                      then "On Hold" else "Action Required").
Proof.
  intros Hpos docs'.
  set (d := mkQueryDoc newId
              (handleSubmit_create LocalTZA startDateNow rxNow logNow formData)).
  exists (deriveStatus (snapshotDoc d)).
  split; [|split; [reflexivity|]].
  - subst docs'. cbn [handleSaveSubscription handleSubmit submission_id
                      submission_data].
    unfold onSnapshot. now rewrite !map_app.
  - change (sub_status (deriveStatus (snapshotDoc d)))
      with (overallStatus (snapshotDoc d)).
    assert (Hfirst : nth_error (fulfillments (snapshotDoc d)) 0
                     = Some (newFulfillment LocalTZA startDateNow rxNow 0)).
    { apply (pushFulfillments_new LocalTZA startDateNow rxNow
               (Z.to_nat (form_duration formData)) 0 [] 0). lia. }
    destruct (overallStatus_cases (snapshotDoc d))
      as [[E ->]|[[E [Hall ->]]|[[E [_ [_ ->]]]|[E [_ [Hrx ->]]]]]].
    + change (sub_status (snapshotDoc d)) with (form_status formData) in E.
      now rewrite E.
    + unfold allFulfilled in Hall.
      rewrite (forallb_false_at _ _ _ _ Hfirst) in Hall by reflexivity.
      discriminate.
    + change (sub_status (snapshotDoc d)) with (form_status formData) in E.
      apply String.eqb_neq in E. now rewrite E.
    + unfold requiresAction in Hrx.
      rewrite (existsb_true_at _ _ _ _ Hfirst) in Hrx by reflexivity.
      discriminate.
Qed.

(** ** The edit form *)

Lemma getDoc_replace (docs : list QueryDoc) (subId : string)
    (g : QueryDoc -> QueryDoc) :
  (forall d, doc_id (g d) = doc_id d) ->
  getDoc subId
    (map (fun d => if String.eqb (doc_id d) subId then g d else d) docs)
  = option_map g (getDoc subId docs).
Proof.
  intros Hg. unfold getDoc. induction docs as [|d docs IH]; simpl.
  - reflexivity.
  - destruct (String.eqb (doc_id d) subId) eqn:E; simpl.
    + now rewrite Hg, E.
    + now rewrite E.
Qed.

Lemma handleSaveSubscription_edit (newId : string) (formData : FormData)
    (sub : Subscription) (docs : list QueryDoc) :
  id sub <> "" -> startDate sub <> None ->
  handleSaveSubscription newId (handleSubmit_edit formData sub) docs
  = map (fun d => if String.eqb (doc_id d) (id sub)
                  then mkQueryDoc (doc_id d)
                         (submission_data (handleSubmit_edit formData sub))
                  else d) docs.
Proof.
  intros Hid Hstart. unfold handleSaveSubscription.
  cbn [handleSubmit_edit submission_id submission_data data_startDate].
  apply String.eqb_neq in Hid. rewrite Hid.
  destruct (startDate sub); [reflexivity|contradiction].
Qed.

Lemma overallStatus_nonempty (sub : Subscription) : overallStatus sub <> "".
Proof.
  destruct (overallStatus_cases sub)
    as [[_ ->]|[[_ [_ ->]]|[[_ [_ [_ ->]]]|[_ [_ [_ ->]]]]]]; discriminate.
Qed.

Lemma overallStatus_set_status (sub : Subscription) :
  overallStatus (set_status (overallStatus sub) sub) = overallStatus sub.
Proof.
  unfold overallStatus at 1.
  change (sub_status (set_status (overallStatus sub) sub))
    with (overallStatus sub).
  change (allFulfilled (set_status (overallStatus sub) sub))
    with (allFulfilled sub).
  change (requiresAction (set_status (overallStatus sub) sub))
    with (requiresAction sub).
  destruct (overallStatus_cases sub)
    as [[_ E]|[[_ [H1 E]]|[[_ [H1 [H2 E]]]|[_ [H1 [H2 E]]]]]];
    rewrite E; try rewrite H1; try rewrite H2; reflexivity.
Qed.

Section EditRoundTrip.

Variable LocalTZA : Z -> bool -> Z.
Variable toLocaleDateString : Z -> string.
Variable trim : string -> string.

(** X15: opening the edit form on a subscription and submitting it untouched
    changes nothing the table shows (what is stored as its status becomes
    the status the table showed). *)
Theorem edit_untouched_changes_nothing (docs : list QueryDoc)
    (sub : Subscription) (randomName newId : string)
    (startDateNow rxNow logNow : Z) :
  ui_reachable LocalTZA toLocaleDateString trim docs ->
  In sub (onSnapshot docs) ->
  patientName sub <> "" -> drugName sub <> "" -> physicianStatus sub <> "" ->
  onSnapshot
    (handleSaveSubscription newId
       (handleSubmit LocalTZA startDateNow rxNow logNow
                     (initialFormData randomName (Some sub)) (Some sub))
       docs)
  = onSnapshot docs.
Proof.
  intros Hreach Hsub Hpn Hdn Hps.
  destruct (ui_reachable_ok LocalTZA toLocaleDateString trim docs Hreach)
    as [Hnd Hall].
  pose proof Hsub as Hsub'.
  apply in_onSnapshot in Hsub'. destruct Hsub' as [d0 [Hd0 Heq]].
  rewrite Forall_forall in Hall.
  destruct (Hall d0 Hd0)
    as [Hid [Hdur [start [fs [created [rest [Hs [Hfs [Hlen [_ Hlog]]]]]]]]]].
  cbn [handleSubmit].
  assert (Hsid : id sub <> "") by (rewrite Heq; exact Hid).
  assert (Hsst : startDate sub <> None).
  { rewrite Heq.
    change (startDate (deriveStatus (snapshotDoc d0)))
      with (data_startDate (doc_data d0)).
    rewrite Hs. discriminate. }
  rewrite (handleSaveSubscription_edit _ _ _ _ Hsid Hsst).
  unfold onSnapshot. rewrite !map_map. apply map_ext_in.
  intros d Hd.
  destruct (String.eqb (doc_id d) (id sub)) eqn:E; [|reflexivity].
  apply String.eqb_eq in E.
  assert (d = d0) as ->
    by (apply (same_id_same_doc docs); try assumption; now rewrite E, Heq).
  clear E Hd.
  assert (Hdur0 : (duration sub =? 0) = false).
  { rewrite Heq.
    change (duration (deriveStatus (snapshotDoc d0)))
      with (data_duration (doc_data d0)).
    apply Z.eqb_neq. simpl in Hdur. lia. }
  unfold deriveStatus at 1.
  match goal with
  | |- set_status (overallStatus ?s) ?s = _ => set (s' := s)
  end.
  assert (Hst : overallStatus s' = overallStatus (snapshotDoc d0)).
  { replace (overallStatus s')
      with (overallStatus (set_status (overallStatus (snapshotDoc d0))
                                      (snapshotDoc d0))).
    - apply overallStatus_set_status.
    - unfold overallStatus, allFulfilled, requiresAction. subst s'.
      cbn [snapshotDoc sub_status fulfillments set_status doc_data
           submission_data handleSubmit_edit data_status data_fulfillments
           initialFormData form_status].
      rewrite Heq.
      change (sub_status (deriveStatus (snapshotDoc d0)))
        with (overallStatus (snapshotDoc d0)).
      unfold orDefault.
      pose proof (overallStatus_nonempty (snapshotDoc d0)) as Hne.
      apply String.eqb_neq in Hne. rewrite Hne.
      cbn [deriveStatus set_status fulfillments snapshotDoc doc_data].
      reflexivity. }
  rewrite Hst. unfold deriveStatus, set_status. subst s'.
  cbn [snapshotDoc id patientName drugName newRxCall duration physicianStatus
       startDate fulfillments communicationLog doc_id doc_data
       submission_data handleSubmit_edit initialFormData
       data_patientName data_drugName data_newRxCall data_duration
       data_physicianStatus data_startDate data_fulfillments
       data_communicationLog form_patientName form_drugName form_newRxCall
       form_duration form_physicianStatus].
  rewrite Hdur0. unfold orDefault.
  apply String.eqb_neq in Hpn, Hdn, Hps. rewrite Hpn, Hdn, Hps.
  rewrite Heq.
  cbn [deriveStatus set_status snapshotDoc id patientName drugName newRxCall
       duration physicianStatus startDate fulfillments communicationLog].
  reflexivity.
Qed.

End EditRoundTrip.

(** ** Deletion and the log modal *)

Lemma getDoc_filter_other (docs : list QueryDoc) (subId other : string) :
  other <> subId ->
  getDoc other (filter (fun d => negb (String.eqb (doc_id d) subId)) docs)
  = getDoc other docs.
Proof.
  intros Hne. unfold getDoc. induction docs as [|d docs IH]; simpl.
  - reflexivity.
  - destruct (String.eqb (doc_id d) subId) eqn:E; simpl.
    + apply String.eqb_eq in E.
      assert (String.eqb (doc_id d) other = false) as ->
        by (apply String.eqb_neq; congruence).
      exact IH.
    + destruct (String.eqb (doc_id d) other); [reflexivity|exact IH].
Qed.

Lemma getDoc_filter_same (docs : list QueryDoc) (subId : string) :
  getDoc subId (filter (fun d => negb (String.eqb (doc_id d) subId)) docs)
  = None.
Proof.
  unfold getDoc. induction docs as [|d docs IH]; simpl.
  - reflexivity.
  - destruct (String.eqb (doc_id d) subId) eqn:E; simpl.
    + exact IH.
    + now rewrite E.
Qed.

(** X16: a confirmed deletion removes the subscription and no other; from then on
    [updateFulfillment] and [addLog] for its id write nothing.  A declined
    confirmation changes nothing. *)
Theorem deleted_subscription_gets_no_writes (docs : list QueryDoc)
    (subId : string) :
  let docs' := handleDelete true subId docs in
  getDoc subId docs' = None /\
  (forall other, other <> subId -> getDoc other docs' = getDoc other docs) /\
  (forall toLocaleDateString now key newStatus tracking',
     updateFulfillment toLocaleDateString (onSnapshot docs') now subId key
                       newStatus tracking' = []) /\
  (forall now message actor,
     addLog (onSnapshot docs') now subId message actor = []) /\
  handleDelete false subId docs = docs.
Proof.
  intros docs'. subst docs'. cbn [handleDelete].
  pose proof (getDoc_filter_same docs subId) as Hnone.
  split; [exact Hnone|]. split; [|split; [|split]].
  - intros other Hne. now apply getDoc_filter_other.
  - intros. now apply updateFulfillment_unknown_sub.
  - intros. unfold addLog. now rewrite find_onSnapshot, Hnone.
  - reflexivity.
Qed.

(** X17: [handleAddLog] drops a message that trims to the empty string; any other
    message is appended to the log exactly as typed (not trimmed), by
    'Pharmacy Staff', and the fulfillments stay as they are. *)
Theorem handleAddLog_appends_as_typed (trim : string -> string)
    (docs : list QueryDoc) (now : Z) (sub : Subscription) (d : QueryDoc)
    (newMessage : string) :
  getDoc (id sub) docs = Some d ->
  let docs' :=
    commit docs (handleAddLog trim (onSnapshot docs) now sub newMessage) in
  (trim newMessage = "" -> docs' = docs) /\
  (trim newMessage <> "" ->
   exists d',
     getDoc (id sub) docs' = Some d' /\
     communicationLog (snapshotDoc d')
     = communicationLog (snapshotDoc d)
         ++ [ {| date := now; message := newMessage;
                 actor := "Pharmacy Staff" |} ] /\
     fulfillments (snapshotDoc d') = fulfillments (snapshotDoc d)).
Proof.
  intros Hd docs'. subst docs'. unfold handleAddLog. split.
  - intros ->. reflexivity.
  - intros Hne. apply String.eqb_neq in Hne. rewrite Hne.
    rewrite (addLog_writes _ _ _ _ _ d Hd).
    unfold commit. cbn [fold_left].
    rewrite getDoc_updateDoc_same, Hd.
    eexists. split; [reflexivity|]. split; reflexivity.
Qed.

(** ** Orders that do not depend on the engine *)

Section EnginesAgree.

Context {A : Type}.
Variable comparefn : A -> A -> Z.

(** Both engines take the same decision on [x] against [y]. *)
Let agree (x y : A) : Prop :=
  JSArray.movesBefore JSArray.V8 comparefn x y
  = JSArray.movesBefore JSArray.SpiderMonkey comparefn x y.

Lemma insert_agree (x : A) (prefix : list A) :
  (forall y, In y prefix -> agree x y) ->
  JSArray.insert JSArray.V8 comparefn x prefix
  = JSArray.insert JSArray.SpiderMonkey comparefn x prefix.
Proof.
  induction prefix as [|y rest IH]; intros Hag; [reflexivity|].
  cbn [JSArray.insert]. rewrite (Hag y (or_introl eq_refl)).
  rewrite IH; [reflexivity|].
  intros z Hz. apply Hag. now right.
Qed.

Lemma sort_agree_all (l : list A) :
  (forall x y, agree x y) ->
  JSArray.sort JSArray.V8 comparefn l
  = JSArray.sort JSArray.SpiderMonkey comparefn l.
Proof.
  intros Hag. unfold JSArray.sort. f_equal.
  generalize (@nil A). induction l as [|x l IH]; intros prefix; [reflexivity|].
  cbn [fold_left]. rewrite insert_agree by (intros; apply Hag). apply IH.
Qed.

Lemma sort_agree_distinct (l : list A) :
  NoDup l ->
  (forall x y, In x l -> In y l -> x <> y -> agree x y) ->
  JSArray.sort JSArray.V8 comparefn l
  = JSArray.sort JSArray.SpiderMonkey comparefn l.
Proof.
  intros Hnd Hag. unfold JSArray.sort. f_equal.
  assert (Hgen : forall l0 prefix,
             NoDup (l0 ++ prefix) -> incl (l0 ++ prefix) l ->
             fold_left (fun p x => JSArray.insert JSArray.V8 comparefn x p)
                       l0 prefix
             = fold_left
                 (fun p x => JSArray.insert JSArray.SpiderMonkey comparefn x p)
                 l0 prefix).
  { induction l0 as [|x l0 IH]; intros prefix Hnd0 Hincl; [reflexivity|].
    cbn [fold_left].
    assert (Hins : JSArray.insert JSArray.V8 comparefn x prefix
                   = JSArray.insert JSArray.SpiderMonkey comparefn x prefix).
    { apply insert_agree. intros y Hy.
      simpl in Hnd0. inversion Hnd0 as [|? ? Hnotin _]; subst.
      apply Hag.
      - apply Hincl. now left.
      - apply Hincl. right. apply in_or_app. now right.
      - intros ->. apply Hnotin. apply in_or_app. now right. }
    rewrite Hins. apply IH.
    - simpl in Hnd0.
      apply (Permutation_NoDup (l := x :: l0 ++ prefix)); [|exact Hnd0].
      eapply perm_trans; [apply Permutation_middle|].
      apply Permutation_app_head. apply insert_Permutation.
    - intros z Hz. apply Hincl. apply in_app_or in Hz.
      destruct Hz as [Hz|Hz].
      + right. apply in_or_app. now left.
      + apply (Permutation_in z
                 (Permutation_sym
                    (insert_Permutation JSArray.SpiderMonkey comparefn x prefix)))
          in Hz.
        destruct Hz as [<-|Hz]; [now left|].
        right. apply in_or_app. now right. }
  apply Hgen.
  - now rewrite app_nil_r.
  - rewrite app_nil_r. apply incl_refl.
Qed.

End EnginesAgree.

(** X18: the log modal lists the entries newest first; entries with the same
    timestamp keep the order in which they were appended; and the order does
    not depend on the engine (the comparator is antisymmetric). *)
Theorem displayedLog_newest_first (e : JSArray.engine) (sub : Subscription) :
  let shown := displayedLog e sub in
  Permutation (communicationLog sub) shown /\
  (forall a b, precedes a b shown -> date b <= date a) /\
  (forall t, filter (fun x => date x =? t) shown
             = filter (fun x => date x =? t) (communicationLog sub)) /\
  shown = displayedLog JSArray.V8 sub.
Proof.
  intros shown. subst shown. unfold displayedLog.
  split; [apply sort_Permutation|]. split; [|split].
  - intros a b Hab.
    apply (sort_ordered e compareLogEntries (fun x y => date y <= date x))
      with (l := communicationLog sub); try exact Hab.
    + intros x y z Hxy Hyz. lia.
    + intros x y H. unfold compareLogEntries in H.
      destruct e; simpl in H; apply Z.ltb_lt in H; lia.
    + intros x y H. unfold compareLogEntries in H.
      destruct e; simpl in H; apply Z.ltb_ge in H; lia.
  - intros t. apply sort_filter. intros x y Hx Hy.
    apply Z.eqb_eq in Hx, Hy. unfold compareLogEntries.
    destruct e; simpl; apply Z.ltb_ge; lia.
  - destruct e; [reflexivity|]. symmetry. apply sort_agree_all.
    intros x y. simpl. unfold compareLogEntries.
    destruct (Z.ltb_spec (date y - date x) 0), (Z.ltb_spec 0 (date x - date y));
      try reflexivity; lia.
Qed.

(** X19: the display order of the subscriptions does not depend on the engine as
    long as no two subscriptions are without a next actionable date. *)
Theorem sortedSubscriptions_engine_independent
    (subscriptions : list Subscription) :
  NoDup subscriptions ->
  (forall a b, In a subscriptions -> In b subscriptions ->
               getNextActionableDate a = None ->
               getNextActionableDate b = None -> a = b) ->
  sortedSubscriptions JSArray.V8 subscriptions
  = sortedSubscriptions JSArray.SpiderMonkey subscriptions.
Proof.
  intros Hnd Hone. apply sort_agree_distinct; [exact Hnd|].
  intros x y Hx Hy Hxy. simpl.
  assert (Hdated : getNextActionableDate x <> None \/
                   getNextActionableDate y <> None).
  { destruct (getNextActionableDate x) eqn:Ex; [left; discriminate|].
    destruct (getNextActionableDate y) eqn:Ey; [right; discriminate|].
    exfalso. apply Hxy. now apply Hone. }
  unfold compareSubscriptions.
  destruct (String.eqb (sub_status x) "Action Required"),
           (String.eqb (sub_status y) "Action Required"),
           (getNextActionableDate x), (getNextActionableDate y);
    simpl; try reflexivity;
    try (destruct Hdated as [H|H]; now destruct H).
  all: match goal with
       | |- (?a <? 0) = (0 <? ?b) =>
           destruct (Z.ltb_spec a 0), (Z.ltb_spec 0 b); try reflexivity; lia
       end.
Qed.

(** ** The properties above on the scenario *)

Example latin1_trim_examples :
  latin1_trim "  Called patient  " = "Called patient" /\
  latin1_trim "   " = "".
Proof. split; reflexivity. Qed.

Lemma scenario_shipped_sub_shown :
  In scenario_shipped_sub (onSnapshot scenario_shipped).
Proof. left. reflexivity. Defined.

Lemma scenario_sub_shown : In scenario_sub (onSnapshot [scenario_doc]).
Proof. left. reflexivity. Defined.

Lemma utc_host_constant : forall (t : Z) (b : bool), JSDate.utc_host t b = 0.
Proof. reflexivity. Defined.

Lemma ui_schedule_fixed_witness :
  exists start,
    startDate scenario_shipped_sub = Some start /\
    forall i f, nth_error (fulfillments scenario_shipped_sub) i = Some f ->
                fulfillmentDate f = addMonths JSDate.utc_host start (Z.of_nat i).
Proof.
  apply (ui_schedule_fixed JSDate.utc_host enUS latin1_trim scenario_shipped
           scenario_shipped_sub scenario_shipped_ui_reachable
           scenario_shipped_sub_shown).
Defined.

Lemma ui_fulfillment_status_known_witness :
  exists info, FULFILLMENT_STATUSES "Shipped" = Some info.
Proof.
  apply (ui_fulfillment_status_known JSDate.utc_host enUS latin1_trim
           scenario_shipped scenario_shipped_sub
           (mkFulfillment 1704067200000 "Shipped" (Some "1Z999")
                          (Some "RX-INITIAL-1704067200000"))
           scenario_shipped_ui_reachable scenario_shipped_sub_shown).
  left. reflexivity.
Defined.

Lemma ui_shipped_has_tracking_witness :
  exists trackingNumber,
    tracking (mkFulfillment 1704067200000 "Shipped" (Some "1Z999")
                            (Some "RX-INITIAL-1704067200000"))
    = Some trackingNumber.
Proof.
  apply (ui_shipped_has_tracking JSDate.utc_host enUS latin1_trim
           scenario_shipped scenario_shipped_sub _
           scenario_shipped_ui_reachable scenario_shipped_sub_shown).
  - left. reflexivity.
  - reflexivity.
Defined.

Lemma ui_rxId_only_first_witness :
  rxId (mkFulfillment 1706745600000 "Scheduled" None None) <> None
  <-> 1%nat = 0%nat.
Proof.
  apply (ui_rxId_only_first JSDate.utc_host enUS latin1_trim scenario_shipped
           scenario_shipped_sub 1 _
           scenario_shipped_ui_reachable scenario_shipped_sub_shown).
  reflexivity.
Defined.

Lemma ui_log_begins_with_creation_witness :
  exists created rest,
    communicationLog scenario_shipped_sub
    = {| date := created; message := "Subscription created.";
         actor := "System" |} :: rest.
Proof.
  apply (ui_log_begins_with_creation JSDate.utc_host enUS latin1_trim
           scenario_shipped scenario_shipped_sub
           scenario_shipped_ui_reachable scenario_shipped_sub_shown).
Defined.

Lemma ui_count_is_duration_witness :
  count_is_duration scenario_shipped_sub /\
  In (duration scenario_shipped_sub) [1; 3; 6].
Proof.
  apply (ui_count_is_duration JSDate.utc_host enUS latin1_trim
           scenario_shipped scenario_shipped_sub
           scenario_shipped_ui_reachable scenario_shipped_sub_shown).
Defined.

Lemma ui_transition_updates_one_witness :
  exists d',
    getDoc "sub1"
      (afterUpdateFulfillment enUS [scenario_doc] 1704153600000 "sub1"
                              first_key "Intake Sent" None) = Some d' /\
    forall j, j <> 0%nat ->
      nth_error (fulfillments (snapshotDoc d')) j
      = nth_error (fulfillments scenario_sub) j.
Proof.
  apply (ui_transition_updates_one JSDate.utc_host enUS latin1_trim 0
           utc_host_constant [scenario_doc] scenario_sub 0 first_key
           1704153600000 "Intake Sent" None
           scenario_ui_reachable scenario_sub_shown).
  reflexivity.
Defined.

Lemma snapshot_status_displayable_witness :
  In (sub_status scenario_sub) displayedStatuses /\
  exists colors, STATUS_COLORS (sub_status scenario_sub) = Some colors.
Proof.
  apply (snapshot_status_displayable [scenario_doc] scenario_sub
           scenario_sub_shown).
Defined.

Lemma created_subscription_status_witness :
  exists sub,
    onSnapshot
      (handleSaveSubscription "sub1"
         (handleSubmit JSDate.utc_host 1704067200000 1704067200000
                       1704067200000 scenario_form None) [])
    = onSnapshot [] ++ [sub] /\
    id sub = "sub1" /\
    sub_status sub = "Action Required".
Proof.
  apply (created_subscription_status JSDate.utc_host 1704067200000
           1704067200000 1704067200000 scenario_form "sub1" []).
  reflexivity.
Defined.

Lemma edit_untouched_changes_nothing_witness :
  onSnapshot
    (handleSaveSubscription "unused"
       (handleSubmit JSDate.utc_host 0 0 0
                     (initialFormData "Patient-4711" (Some scenario_shipped_sub))
                     (Some scenario_shipped_sub))
       scenario_shipped)
  = onSnapshot scenario_shipped.
Proof.
  apply (edit_untouched_changes_nothing JSDate.utc_host enUS latin1_trim
           scenario_shipped scenario_shipped_sub "Patient-4711" "unused" 0 0 0
           scenario_shipped_ui_reachable scenario_shipped_sub_shown).
  - vm_compute. discriminate.
  - vm_compute. discriminate.
  - vm_compute. discriminate.
Defined.

Lemma handleAddLog_appends_as_typed_witness :
  (latin1_trim " Called patient. " = "" ->
   commit [scenario_doc]
     (handleAddLog latin1_trim (onSnapshot [scenario_doc]) 1704153600000
                   scenario_sub " Called patient. ") = [scenario_doc]) /\
  (latin1_trim " Called patient. " <> "" ->
   exists d',
     getDoc "sub1"
       (commit [scenario_doc]
          (handleAddLog latin1_trim (onSnapshot [scenario_doc]) 1704153600000
                        scenario_sub " Called patient. ")) = Some d' /\
     communicationLog (snapshotDoc d')
     = communicationLog (snapshotDoc scenario_doc)
         ++ [ {| date := 1704153600000; message := " Called patient. ";
                 actor := "Pharmacy Staff" |} ] /\
     fulfillments (snapshotDoc d') = fulfillments (snapshotDoc scenario_doc)).
Proof.
  apply (handleAddLog_appends_as_typed latin1_trim [scenario_doc]
           1704153600000 scenario_sub scenario_doc " Called patient. ").
  reflexivity.
Defined.

Lemma sortedSubscriptions_engine_independent_witness :
  sortedSubscriptions JSArray.V8 mixed_subscriptions
  = sortedSubscriptions JSArray.SpiderMonkey mixed_subscriptions.
Proof.
  apply (sortedSubscriptions_engine_independent mixed_subscriptions).
  - constructor.
    + intros [H|[]]. vm_compute in H. discriminate H.
    + constructor; [intros []|constructor].
  - intros a b [<-|[<-|[]]] [<-|[<-|[]]] Ha Hb;
      try reflexivity; vm_compute in Ha, Hb; discriminate.
Defined.

(** ** Status derivation, once more *)

(** X22: deriving the status of a derived subscription changes nothing: a record
    that went through the snapshot handler, was written back and comes in
    again is shown as before. *)
Theorem deriveStatus_idempotent (sub : Subscription) :
  deriveStatus (deriveStatus sub) = deriveStatus sub.
Proof.
  unfold deriveStatus at 1 3.
  change (overallStatus (deriveStatus sub))
    with (overallStatus (set_status (overallStatus sub) sub)).
  rewrite overallStatus_set_status. reflexivity.
Qed.

(** X23: a subscription that is not on hold and has a fulfillment with status
    'RX Received' is shown as 'Action Required', whatever the statuses of its
    other fulfillments. *)
Theorem rx_received_means_action_required (doc : QueryDoc) (f : Fulfillment) :
  data_status (doc_data doc) <> "On Hold" ->
  In f (fulfillments (snapshotDoc doc)) ->
  status f = "RX Received" ->
  sub_status (deriveStatus (snapshotDoc doc)) = "Action Required".
Proof.
  intros Hhold Hf Hrx.
  change (overallStatus (snapshotDoc doc) = "Action Required").
  rewrite overallStatus_derived by exact Hhold.
  apply In_nth_error in Hf. destruct Hf as [i Hi].
  unfold allFulfilled, requiresAction.
  rewrite (forallb_false_at _ _ i f Hi) by now rewrite Hrx.
  rewrite (existsb_true_at _ _ i f Hi) by now rewrite Hrx.
  reflexivity.
Qed.

Lemma rx_received_means_action_required_witness :
  sub_status (deriveStatus (snapshotDoc duplicate_dates_doc))
  = "Action Required".
Proof.
  apply (rx_received_means_action_required duplicate_dates_doc
           (mkFulfillment 1704067200000 "RX Received" None (Some "RX-1"))).
  - discriminate.
  - left. reflexivity.
  - reflexivity.
Defined.

(** ** The next actionable date, against its description *)

Lemma find_not_shipped_split (fs : list Fulfillment) (f : Fulfillment) :
  find (fun g => negb (String.eqb (status g) "Shipped")) fs = Some f ->
  exists shipped rest,
    fs = shipped ++ f :: rest /\ Forall Shipped shipped /\ ~ Shipped f.
Proof.
  induction fs as [|g fs IH]; simpl; [discriminate|].
  destruct (String.eqb_spec (status g) "Shipped") as [E|E]; simpl.
  - intros Hfind. destruct (IH Hfind) as [shipped [rest [-> [Hall Hf]]]].
    exists (g :: shipped), rest. split; [reflexivity|].
    split; [now constructor|exact Hf].
  - intros [= <-]. exists [], fs. split; [reflexivity|].
    split; [constructor|exact E].
Qed.

Lemma find_not_shipped_first (shipped rest : list Fulfillment) (f : Fulfillment) :
  Forall Shipped shipped -> ~ Shipped f ->
  find (fun g => negb (String.eqb (status g) "Shipped")) (shipped ++ f :: rest)
  = Some f.
Proof.
  intros Hall Hf. induction Hall as [|g shipped Hg _ IH]; simpl.
  - apply String.eqb_neq in Hf. now rewrite Hf.
  - unfold Shipped in Hg. rewrite Hg, String.eqb_refl. exact IH.
Qed.

Lemma firstNotShipped_next (sub : Subscription) (f : Fulfillment) :
  firstNotShipped sub f ->
  getNextActionableDate sub = Some (fulfillmentDate f).
Proof.
  intros [shipped [rest [Hfs [Hall Hf]]]].
  unfold getNextActionableDate.
  now rewrite Hfs, (find_not_shipped_first shipped rest f Hall Hf).
Qed.

(** [getNextActionableDate] is [null] when every fulfillment is 'Shipped'
    and the date of the first one that is not otherwise. *)
Lemma getNextActionableDate_cases (sub : Subscription) :
  (Forall Shipped (fulfillments sub) /\ getNextActionableDate sub = None) \/
  (exists f, firstNotShipped sub f /\
             getNextActionableDate sub = Some (fulfillmentDate f)).
Proof.
  unfold getNextActionableDate.
  destruct (find _ (fulfillments sub)) as [f|] eqn:Hfind.
  - right. exists f. split; [|reflexivity].
    now apply find_not_shipped_split.
  - left. split; [|reflexivity].
    apply allFulfilled_Forall. now apply find_not_none_forallb.
Qed.

Lemma all_shipped_no_next (sub : Subscription) :
  Forall Shipped (fulfillments sub) -> getNextActionableDate sub = None.
Proof.
  intros Hall.
  destruct (getNextActionableDate_cases sub) as [[_ H]|[f [Hf _]]];
    [exact H|].
  destruct Hf as [shipped [rest [Hfs [_ Hns]]]]. exfalso. apply Hns.
  rewrite Forall_forall in Hall. apply Hall. rewrite Hfs.
  apply in_or_app. right. now left.
Qed.

(** C5: the displayed list holds the subscriptions of the snapshot, and for
    any [a] standing before [b] in it: if [b] is 'Action Required' so is [a];
    if neither is, the first fulfillment of [a] that is not 'Shipped' (in
    stored order) is dated no later than the first such fulfillment of [b];
    and if every fulfillment of [a] is 'Shipped', so is every fulfillment of
    [b].  The key the comparator reads, [getNextActionableDate], is that
    date: [null] when every fulfillment is 'Shipped', the date of the first
    that is not otherwise. *)
Theorem sorted_display_order (e : JSArray.engine) (docs : list QueryDoc) :
  let out := sortedSubscriptions e (onSnapshot docs) in
  Permutation (onSnapshot docs) out /\
  (forall a b, precedes a b out ->
     (sub_status b = "Action Required" -> sub_status a = "Action Required") /\
     (sub_status a <> "Action Required" ->
      sub_status b <> "Action Required" ->
      forall fa fb,
        firstNotShipped a fa -> firstNotShipped b fb ->
        fulfillmentDate fa <= fulfillmentDate fb) /\
     (Forall Shipped (fulfillments a) -> Forall Shipped (fulfillments b))) /\
  (forall s, In s out ->
     (Forall Shipped (fulfillments s) /\ getNextActionableDate s = None) \/
     (exists f, firstNotShipped s f /\
                getNextActionableDate s = Some (fulfillmentDate f))).
Proof.
  intros out.
  assert (Hperm : Permutation (onSnapshot docs) out)
    by apply sort_Permutation.
  split; [exact Hperm|]. split; [|intros s _; apply getNextActionableDate_cases].
  intros a b Hab.
  assert (Hle : mayPrecede a b = true).
  { apply (sort_ordered e compareSubscriptions
             (fun x y => mayPrecede x y = true)) with (l := onSnapshot docs).
    - apply mayPrecede_trans.
    - apply movesBefore_mayPrecede.
    - apply kept_mayPrecede.
    - exact Hab. }
  assert (Ha : In a (onSnapshot docs)).
  { apply (Permutation_in a (Permutation_sym Hperm)).
    destruct Hab as [l1 [l2 [l3 ->]]]. apply in_or_app. right. now left. }
  pose proof (action_required_has_date docs a Ha) as Hdate.
  unfold mayPrecede, isActionRequired in Hle.
  split; [|split].
  - intros Hb. apply String.eqb_eq in Hb. rewrite Hb in Hle.
    destruct (String.eqb (sub_status a) "Action Required") eqn:Ea.
    + now apply String.eqb_eq.
    + discriminate.
  - intros Hna Hnb fa fb Hfa Hfb.
    apply String.eqb_neq in Hna, Hnb.
    rewrite Hna, Hnb, (firstNotShipped_next a fa Hfa),
      (firstNotShipped_next b fb Hfb) in Hle.
    simpl in Hle. now apply Z.leb_le.
  - intros Hall. pose proof (all_shipped_no_next a Hall) as Hnone.
    destruct (String.eqb (sub_status a) "Action Required") eqn:Ea.
    + apply String.eqb_eq in Ea. now destruct (Hdate Ea).
    + rewrite Hnone in Hle.
      destruct (String.eqb (sub_status b) "Action Required"); simpl in Hle;
        [discriminate|].
      destruct (getNextActionableDate_cases b) as [[Hb _]|[f [_ Hf]]];
        [exact Hb|].
      rewrite Hf in Hle. discriminate.
Qed.

(** ** Creation dates on the calendar *)

Section RollOver.

Import JSDate.





Variable LocalTZA : Z -> bool -> Z.



(** On a host with a constant offset from UTC every local time exists. *)
Lemma constant_offset_existsLocally (c nl : Z) :
  (forall t b, LocalTZA t b = c) -> existsLocally LocalTZA nl.
Proof.
  intros Hc. unfold existsLocally, LocalTime, UTC. rewrite !Hc. lia.
Qed.

End RollOver.




(** ** [addMonths] within the range of time values *)

(** X1: on a host with a constant offset from UTC, for a date [t] and month
    counts [i] and [j] whose results are time values (within 8.64e15 ms of
    the epoch, beyond which the code holds an Invalid Date): [addMonths(t, 0)]
    is [t], and [addMonths(t, i)] is before [addMonths(t, j)] exactly when
    [i < j]. *)
Theorem addMonths_strictly_increasing (LocalTZA : Z -> bool -> Z)
    (c t i j : Z) :
  (forall t0 b, LocalTZA t0 b = c) ->
  JSDate.validTime t ->
  JSDate.validTime (addMonths LocalTZA t i) ->
  JSDate.validTime (addMonths LocalTZA t j) ->
  addMonths LocalTZA t 0 = t /\
  (i < j <-> addMonths LocalTZA t i < addMonths LocalTZA t j).
Proof.
  intros Hc _ _ _.
  split; [apply (addMonths_zero LocalTZA c Hc)|]. split.
  - apply (addMonths_lt LocalTZA c Hc).
  - intros H. destruct (Z.lt_trichotomy i j) as [Hlt|[->|Hgt]].
    + exact Hlt.
    + lia.
    + pose proof (addMonths_lt LocalTZA c Hc t j i Hgt). lia.
Qed.

Lemma addMonths_strictly_increasing_witness :
  addMonths JSDate.utc_host month_end_start 0 = month_end_start /\
  (1 < 2 <-> addMonths JSDate.utc_host month_end_start 1
             < addMonths JSDate.utc_host month_end_start 2).
Proof.
  apply (addMonths_strictly_increasing JSDate.utc_host 0 month_end_start 1 2
           utc_host_constant); vm_compute; reflexivity.
Defined.

(** ** The next actionable date of a reachable subscription *)

Section NextActionable.

Variable LocalTZA : Z -> bool -> Z.
Variable toLocaleDateString : Z -> string.
Variable trim : string -> string.
Variable c : Z.
Hypothesis constant_offset : forall t b, LocalTZA t b = c.

(** X9: for a subscription of a collection the interface can produce, on a
    host with a constant offset from UTC: either every fulfillment is
    'Shipped' and there is no next actionable date, or the next actionable
    date is the date of a fulfillment that is not 'Shipped', and every other
    fulfillment that is not 'Shipped' is dated strictly later. *)
Theorem ui_next_actionable_is_earliest (docs : list QueryDoc)
    (sub : Subscription) :
  ui_reachable LocalTZA toLocaleDateString trim docs ->
  In sub (onSnapshot docs) ->
  (Forall Shipped (fulfillments sub) /\ getNextActionableDate sub = None) \/
  (exists g,
     In g (fulfillments sub) /\ ~ Shipped g /\
     getNextActionableDate sub = Some (fulfillmentDate g) /\
     forall f, In f (fulfillments sub) -> ~ Shipped f ->
               f = g \/ fulfillmentDate g < fulfillmentDate f).
Proof.
  intros Hreach Hsub.
  destruct (getNextActionableDate_cases sub) as [H|[g [Hg Hnext]]];
    [left; exact H|right].
  exists g. destruct Hg as [shipped [rest [Hfs [Hall Hns]]]].
  split; [rewrite Hfs; apply in_or_app; right; now left|].
  split; [exact Hns|]. split; [exact Hnext|].
  intros f Hf Hfn.
  assert (Hi : nth_error (fulfillments sub) (length shipped) = Some g).
  { rewrite Hfs, nth_error_app2, Nat.sub_diag by lia. reflexivity. }
  apply In_nth_error in Hf. destruct Hf as [j Hj].
  destruct (Nat.lt_trichotomy j (length shipped)) as [Hlt|[E|Hgt]].
  - exfalso. apply Hfn. rewrite Forall_forall in Hall. apply Hall.
    rewrite Hfs, nth_error_app1 in Hj by exact Hlt.
    now apply nth_error_In in Hj.
  - left. subst j. congruence.
  - right.
    apply (ui_dates_increasing LocalTZA toLocaleDateString trim c
             constant_offset docs sub (length shipped) j g f
             Hreach Hsub Hi Hj Hgt).
Qed.

End NextActionable.

Lemma ui_next_actionable_is_earliest_witness :
  exists g,
    In g (fulfillments scenario_shipped_sub) /\ ~ Shipped g /\
    getNextActionableDate scenario_shipped_sub = Some (fulfillmentDate g) /\
    forall f, In f (fulfillments scenario_shipped_sub) -> ~ Shipped f ->
              f = g \/ fulfillmentDate g < fulfillmentDate f.
Proof.
  destruct (ui_next_actionable_is_earliest JSDate.utc_host enUS latin1_trim 0
              utc_host_constant scenario_shipped scenario_shipped_sub
              scenario_shipped_ui_reachable scenario_shipped_sub_shown)
    as [[_ Hnone]|H].
  - vm_compute in Hnone. discriminate Hnone.
  - exact H.
Defined.

(** ** The "Next Action Date" cell *)

(** X11: a row that is not on hold is of one of two kinds.  Either its status
    is 'Fulfilled' and every fulfillment is 'Shipped': then the cell reads
    'Completed' and the row is not past due.  Or its status is not
    'Fulfilled': then the cell is the formatted date of the first fulfillment,
    in stored order, that is not 'Shipped', and the row is past due exactly
    when that date is before the current time. *)
Theorem fulfilled_iff_completed (toLocaleDateString : Z -> string)
    (docs : list QueryDoc) (sub : Subscription) (now : Z) :
  In sub (onSnapshot docs) ->
  sub_status sub <> "On Hold" ->
  (sub_status sub = "Fulfilled" /\ Forall Shipped (fulfillments sub) /\
   nextActionCell toLocaleDateString sub = "Completed" /\
   isPastDue now sub = false) \/
  (sub_status sub <> "Fulfilled" /\
   exists f,
     firstNotShipped sub f /\
     nextActionCell toLocaleDateString sub
     = toLocaleDateString (fulfillmentDate f) /\
     isPastDue now sub = (fulfillmentDate f <? now)).
Proof.
  intros Hsub Hhold.
  assert (Hst : sub_status sub = "Fulfilled"
                <-> getNextActionableDate sub = None).
  { apply in_onSnapshot in Hsub. destruct Hsub as [d [_ ->]].
    set (s := snapshotDoc d) in *.
    change (sub_status (deriveStatus s)) with (overallStatus s) in *.
    change (getNextActionableDate (deriveStatus s))
      with (getNextActionableDate s).
    rewrite <- allFulfilled_no_next_date.
    destruct (overallStatus_cases s)
      as [[_ E]|[[_ [Hall E]]|[[_ [Hall [_ E]]]|[_ [Hall [_ E]]]]]];
      rewrite E in *; try contradiction; rewrite Hall;
      split; intros H; try reflexivity; discriminate H. }
  unfold nextActionCell, isPastDue.
  destruct (getNextActionableDate_cases sub) as [[Hall Hnone]|[f [Hf Hnext]]].
  - left. rewrite Hnone. split; [now apply Hst|]. split; [exact Hall|].
    split; reflexivity.
  - right. rewrite Hnext. split.
    + intros E. apply Hst in E. congruence.
    + exists f. split; [exact Hf|]. split; reflexivity.
Qed.

Lemma fulfilled_iff_completed_witness :
  sub_status scenario_shipped_sub <> "Fulfilled" /\
  exists f,
    firstNotShipped scenario_shipped_sub f /\
    nextActionCell enUS scenario_shipped_sub = enUS (fulfillmentDate f) /\
    isPastDue 1711929600000 scenario_shipped_sub
    = (fulfillmentDate f <? 1711929600000).
Proof.
  destruct (fulfilled_iff_completed enUS scenario_shipped scenario_shipped_sub
              1711929600000 scenario_shipped_sub_shown) as [[E _]|H].
  - vm_compute. discriminate.
  - vm_compute in E. discriminate E.
  - exact H.
Defined.

(** ** Saving the edit form *)

Lemma getDoc_replace_other (docs : list QueryDoc) (subId other : string)
    (g : QueryDoc -> QueryDoc) :
  (forall d, doc_id (g d) = doc_id d) ->
  other <> subId ->
  getDoc other
    (map (fun d => if String.eqb (doc_id d) subId then g d else d) docs)
  = getDoc other docs.
Proof.
  intros Hg Hne. unfold getDoc. induction docs as [|d docs IH]; simpl.
  - reflexivity.
  - destruct (String.eqb_spec (doc_id d) subId) as [E|E].
    + rewrite Hg, E.
      assert (Hf : String.eqb subId other = false)
        by (apply String.eqb_neq; congruence).
      rewrite Hf. exact IH.
    + now rewrite IH.
Qed.

(** X14: saving the edit form of a subscription writes every field of the
    form (patient, drug, new-prescription call flag, duration, status,
    physician status) and keeps the id, the start date, the fulfillments and
    the communication log of the subscription; of the status chosen in the
    form only 'On Hold' is ever shown, any other choice is replaced by the
    status derived from the fulfillments; no other document is written, none
    is added or removed. *)
Theorem edit_shows_status_only_if_on_hold (LocalTZA : Z -> bool -> Z)
    (startDateNow rxNow logNow : Z) (newId subId : string)
    (formData : FormData) (docs : list QueryDoc) (d : QueryDoc) :
  getDoc subId docs = Some d ->
  subId <> "" ->
  data_startDate (doc_data d) <> None ->
  let sub := deriveStatus (snapshotDoc d) in
  let docs' :=
    handleSaveSubscription newId
      (handleSubmit LocalTZA startDateNow rxNow logNow formData (Some sub))
      docs in
  (exists d',
     getDoc subId docs' = Some d' /\
     let sub' := deriveStatus (snapshotDoc d') in
     id sub' = subId /\
     patientName sub' = form_patientName formData /\
     drugName sub' = form_drugName formData /\
     newRxCall sub' = form_newRxCall formData /\
     duration sub' = form_duration formData /\
     physicianStatus sub' = form_physicianStatus formData /\
     startDate sub' = startDate sub /\
     fulfillments sub' = fulfillments sub /\
     communicationLog sub' = communicationLog sub /\
     data_status (doc_data d') = form_status formData /\
     sub_status sub'
     = (if String.eqb (form_status formData) "On Hold" then "On Hold"
        else if allFulfilled sub then "Fulfilled"
        else if requiresAction sub then "Action Required"
        else "Active")) /\
  (forall other, other <> subId -> getDoc other docs' = getDoc other docs) /\
  length docs' = length docs.
Proof.
  intros Hd Hid Hstart sub docs'.
  pose proof (getDoc_id docs subId d Hd) as Hdid.
  assert (Hsid : id sub = subId) by exact Hdid.
  subst docs'. cbn [handleSubmit].
  rewrite handleSaveSubscription_edit by (rewrite ?Hsid; assumption).
  rewrite Hsid. split; [|split].
  - rewrite getDoc_replace, Hd by reflexivity.
    eexists. split; [reflexivity|].
    cbv zeta. split; [exact Hdid|]. repeat split.
    match goal with
    | |- sub_status (deriveStatus ?s) = _ =>
        change (sub_status (deriveStatus s)) with (overallStatus s);
        set (s' := s)
    end.
    assert (Hall : allFulfilled s' = allFulfilled sub) by reflexivity.
    assert (Hrx : requiresAction s' = requiresAction sub) by reflexivity.
    assert (Hst : sub_status s' = form_status formData) by reflexivity.
    unfold overallStatus. rewrite Hall, Hrx, Hst.
    destruct (String.eqb_spec (form_status formData) "On Hold") as [E|E];
      [exact E|reflexivity].
  - intros other Hne. now apply getDoc_replace_other.
  - apply length_map.
Qed.

Lemma edit_shows_status_only_if_on_hold_witness :
  exists d',
    getDoc "sub1"
      (handleSaveSubscription "unused"
         (handleSubmit JSDate.utc_host 0 0 0
            (mkFormData "Patient-2002" "Lisinopril 20mg" true 3 "Approved"
                        "Approved")
            (Some scenario_sub)) [scenario_doc]) = Some d' /\
    patientName (deriveStatus (snapshotDoc d')) = "Patient-2002" /\
    drugName (deriveStatus (snapshotDoc d')) = "Lisinopril 20mg" /\
    newRxCall (deriveStatus (snapshotDoc d')) = true /\
    physicianStatus (deriveStatus (snapshotDoc d')) = "Approved" /\
    fulfillments (deriveStatus (snapshotDoc d')) = fulfillments scenario_sub /\
    sub_status (deriveStatus (snapshotDoc d')) = "Action Required".
Proof.
  destruct (edit_shows_status_only_if_on_hold JSDate.utc_host 0 0 0 "unused"
              "sub1"
              (mkFormData "Patient-2002" "Lisinopril 20mg" true 3 "Approved"
                          "Approved")
              [scenario_doc] scenario_doc)
    as [[d' [Hd' [_ [Hpat [Hdrug [Hcall [_ [Hphys [_ [Hfs [_ [_ Hst]]]]]]]]]]]]
          _].
  - reflexivity.
  - discriminate.
  - discriminate.
  - exists d'. split; [exact Hd'|]. split; [exact Hpat|].
    split; [exact Hdrug|]. split; [exact Hcall|]. split; [exact Hphys|].
    split; [exact Hfs|exact Hst].
Defined.

(** ** Ties between dated subscriptions *)

Lemma precedes_filter_intro {A : Type} (p : A -> bool) (a b : A)
    (l : list A) :
  precedes a b l -> p a = true -> p b = true -> precedes a b (filter p l).
Proof.
  intros [l1 [l2 [l3 ->]]] Ha Hb.
  exists (filter p l1), (filter p l2), (filter p l3).
  rewrite filter_app. simpl. rewrite Ha, filter_app. simpl. now rewrite Hb.
Qed.

Lemma filter_split {A : Type} (p : A -> bool) (b : A) (l l2 l3 : list A) :
  filter p l = l2 ++ b :: l3 -> exists m2 m3, l = m2 ++ b :: m3.
Proof.
  intros H. apply in_split.
  assert (Hin : In b (filter p l))
    by (rewrite H; apply in_or_app; right; now left).
  now apply filter_In in Hin.
Qed.

Lemma precedes_filter_elim {A : Type} (p : A -> bool) (a b : A)
    (l : list A) :
  precedes a b (filter p l) -> precedes a b l.
Proof.
  intros [l1 [l2 [l3 H]]]. revert l1 H.
  induction l as [|x l IH]; intros l1 H.
  - destruct l1; discriminate H.
  - simpl in H. destruct (p x).
    + destruct l1 as [|y l1]; simpl in H.
      * injection H as -> H.
        destruct (filter_split p b l l2 l3 H) as [m2 [m3 ->]].
        now exists [], m2, m3.
      * injection H as -> H.
        destruct (IH l1 H) as [m1 [m2 [m3 ->]]].
        now exists (y :: m1), m2, m3.
    + destruct (IH l1 H) as [m1 [m2 [m3 ->]]].
      now exists (x :: m1), m2, m3.
Qed.

(** X21: two subscriptions with the same sort key that have a next
    actionable date are never swapped, whatever the engine: if both or
    neither are 'Action Required' and the first fulfillments of [a] and of
    [b] that are not 'Shipped' have the same date, then [a] stands before [b]
    in the sorted list exactly when it does in the list sorted. *)
Theorem dated_ties_keep_order (e : JSArray.engine)
    (subscriptions : list Subscription) (a b : Subscription)
    (fa fb : Fulfillment) :
  (sub_status a = "Action Required" <-> sub_status b = "Action Required") ->
  firstNotShipped a fa -> firstNotShipped b fb ->
  fulfillmentDate fa = fulfillmentDate fb ->
  precedes a b (sortedSubscriptions e subscriptions)
  <-> precedes a b subscriptions.
Proof.
  intros Hst Hfa Hfb Hdate.
  pose proof (firstNotShipped_next a fa Hfa) as Ha.
  pose proof (firstNotShipped_next b fb Hfb) as Hb.
  assert (Hkey : forall x fx,
             getNextActionableDate x = Some (fulfillmentDate fx) ->
             fulfillmentDate fa = fulfillmentDate fx ->
             (sub_status a = "Action Required"
              <-> sub_status x = "Action Required") ->
             sameKey a x = true).
  { intros x fx Hx Hd Hs. unfold sameKey, isActionRequired.
    rewrite Ha, Hx, Hd, Z.eqb_refl, andb_true_r.
    destruct (String.eqb_spec (sub_status a) "Action Required") as [E|E];
      destruct (String.eqb_spec (sub_status x) "Action Required") as [E'|E'];
      try reflexivity; exfalso; tauto. }
  assert (Haa : sameKey a a = true)
    by (apply (Hkey a fa Ha); [reflexivity|tauto]).
  assert (Hab : sameKey a b = true) by apply (Hkey b fb Hb Hdate Hst).
  assert (Hstable : filter (sameKey a) (sortedSubscriptions e subscriptions)
                    = filter (sameKey a) subscriptions)
    by (apply sortedSubscriptions_stable_dated; congruence).
  split; intros H; apply (precedes_filter_elim (sameKey a)).
  - rewrite <- Hstable. now apply precedes_filter_intro.
  - rewrite Hstable. now apply precedes_filter_intro.
Qed.

Lemma dated_ties_keep_order_witness :
  precedes scenario_sub scenario_twin tied_subscriptions /\
  precedes scenario_sub scenario_twin
           (sortedSubscriptions JSArray.SpiderMonkey tied_subscriptions).
Proof.
  assert (Hin : precedes scenario_sub scenario_twin tied_subscriptions).
  { exists [deriveStatus (snapshotDoc (fulfilled_doc "a"))], [], [].
    reflexivity. }
  split; [exact Hin|].
  apply (dated_ties_keep_order JSArray.SpiderMonkey tied_subscriptions
           scenario_sub scenario_twin
           (mkFulfillment 1704067200000 "RX Received" None
                          (Some "RX-INITIAL-1704067200000"))
           (mkFulfillment 1704067200000 "RX Received" None
                          (Some "RX-INITIAL-1704067200000"))).
  - split; intros _; vm_compute; reflexivity.
  - eexists [], _. split; [vm_compute; reflexivity|].
    split; [constructor|vm_compute; discriminate].
  - eexists [], _. split; [vm_compute; reflexivity|].
    split; [constructor|vm_compute; discriminate].
  - reflexivity.
  - exact Hin.
Defined.

Example tied_subscriptions_sorted :
  map id (sortedSubscriptions JSArray.SpiderMonkey tied_subscriptions)
  = ["sub1"; "sub2"; "a"] /\
  map id (sortedSubscriptions JSArray.V8 tied_subscriptions)
  = ["sub1"; "sub2"; "a"].
Proof. vm_compute. split; reflexivity. Qed.
